(** * Lavalink.py: the player manager (lavalink/playermanager.py)

    A shallow embedding of [PlayerManager]: the guild-to-player dictionary,
    the node objects the players are hosted on, and the calls the manager
    makes to its collaborators (node manager, node transport, player hooks,
    logger).  Python objects that are shared by reference and mutated (the
    nodes) live in a heap; calls that leave the manager are recorded in a
    trace, in the order they are made. *)

From Stdlib Require Import ZArith String List Bool.
From stdpp Require Import base option list gmap strings.

#[local] Set Warnings "-register-all".

Local Open Scope string_scope.
Local Open Scope list_scope.
Local Open Scope Z_scope.

(** ** Python values *)

(** A reference to a [Node] object. *)
Definition node_ref := positive.

(** A Python class object: its identity (two class objects are the same
    class exactly when they have the same identity, whatever their names),
    its name, its direct bases and the names of the methods its body
    defines. *)
Inductive pyclass : Type :=
  PyClass (cls_id : positive) (cls_name : string) (cls_bases : list pyclass)
          (cls_methods : list string).

Definition cls_id (c : pyclass) : positive :=
  match c with PyClass i _ _ _ => i end.

Definition cls_name (c : pyclass) : string :=
  match c with PyClass _ n _ _ => n end.

(** [issubclass(c, base)]: [c] is the class object [base], or one of its
    bases is a subclass of it. *)
Fixpoint issubclass (c : pyclass) (base : pyclass) {struct c} : bool :=
  match c with
  | PyClass i _ bases _ =>
      Pos.eqb i (cls_id base) || existsb (fun b => issubclass b base) bases
  end.

(** Does an instance of [c] have the attribute [attr]: [c] or one of the
    classes it derives from defines it. *)
Fixpoint class_defines (attr : string) (c : pyclass) {struct c} : bool :=
  match c with
  | PyClass _ _ bases methods =>
      existsb (String.eqb attr) methods || existsb (class_defines attr) bases
  end.

(** Modelled from the spec: [models.BasePlayer] is imported by the manager
    and declared in models.py, which is not among the sources; by sections 1
    and 6 a session supports a [cleanup] operation. *)
Definition BasePlayer : pyclass := PyClass 1 "BasePlayer" [] ["cleanup"].

(** What can be passed as the [player] argument of the manager: a class, or
    a callable that is not a class (with the attributes of what it
    returns). *)
Inductive factory : Type :=
| FClass (c : pyclass)
| FCallable (product_attrs : list string).

(** The session factory contract in the words of the spec (section 6): the
    product exposes a [cleanup] operation. *)
Definition exposes_cleanup (f : factory) : bool :=
  match f with
  | FClass c => class_defines "cleanup" c
  | FCallable attrs => existsb (String.eqb "cleanup") attrs
  end.

(** A player: an instance of a player class, with the two attributes the
    manager reads. *)
Record Player : Type := mkPlayer {
  player_class : pyclass;
  guild_id : Z;
  node : option node_ref
}.

(** Modelled from the spec: the player constructor [cls(guild_id, node)] is
    declared in models.py, which is not among the sources; by section 4.2
    the new session is bound to the guild and to the node it is given. *)
Definition new_player (cls : pyclass) (guild : Z) (n : node_ref) : Player :=
  mkPlayer cls guild (Some n).

(** A node object, with the attributes the manager and the node manager
    read ([name], [region], [available], [penalty]) and the list the manager
    appends to ([_original_players]). *)
Record Node : Type := mkNode {
  name : string;
  region : string;
  available : bool;
  penalty : Z;
  _original_players : list Player
}.

(** Keyword arguments of [node._send(op=..., guildId=...)]. *)
Record Command : Type := mkCommand {
  op : string;
  guildId : Z
}.

(** Exceptions raised by the manager, or by a collaborator ([Foreign]). *)
Inductive exn : Type :=
| ValueError (msg : string)
| NodeException (msg : string)
| AttributeError (msg : string)
| TypeError (msg : string)
| Foreign (what : string).

(** What [create] hands back: a player, or (through its early return) the
    node object it was given. *)
Inductive pyval : Type :=
| VPlayer (p : Player)
| VNode (n : node_ref).

(** Calls that leave the manager. *)
Inductive event : Type :=
| EvGetRegion (endpoint : string) (answer : option string)
| EvFindIdealNode (rgn : option string) (answer : option node_ref)
| EvSend (target : node_ref) (cmd : Command)
| EvCleanup (p : Player)
| EvLogInfo (msg : string).

(** ** The manager and the world around it *)

(** [lavalink.Client], as far as the manager uses it: the node manager's
    registered nodes, in registration order. *)
Record Client : Type := mkClient {
  node_manager : list node_ref
}.

Record PlayerManager : Type := mkPlayerManager {
  _lavalink : Client;
  players : gmap Z Player;
  default_player : pyclass
}.

Record World : Type := mkWorld {
  self : PlayerManager;
  heap : gmap node_ref Node;
  trace : list event
}.

(** The instance dictionary of a manager under construction. *)
Record Attrs : Type := mkAttrs {
  attr_lavalink : option Client;
  attr_players : option (gmap Z Player);
  attr_default_player : option factory
}.

Definition no_attrs : Attrs := mkAttrs None None None.

(** ** Collaborators *)

(** The node manager's two queries.  Both only read the registered nodes. *)
Class NodeManager : Type := {
  get_region : list node_ref -> gmap node_ref Node -> string -> option string;
  find_ideal_node :
    list node_ref -> gmap node_ref Node -> option string -> option node_ref
}.

(** How a call that leaves the manager ends: it returns ([None]) or raises. *)
Class Outcomes : Type := {
  _send : node_ref -> Command -> option exn;
  cleanup : Player -> option exn
}.

(** ** A state and exception monad *)

(** [Stuck]: a reference to no object.  No Python execution gets there; the
    embedding has it because the heap is a finite map. *)
Inductive result (A : Type) : Type :=
| Ok (a : A)
| Raise (e : exn)
| Stuck.

Arguments Ok {A} a.
Arguments Raise {A} e.
Arguments Stuck {A}.

Definition M (S A : Type) : Type := S -> result A * S.

Definition ret {S A} (a : A) : M S A := fun s => (Ok a, s).

Definition bind {S A B} (m : M S A) (k : A -> M S B) : M S B :=
  fun s =>
    match m s with
    | (Ok a, s') => k a s'
    | (Raise e, s') => (Raise e, s')
    | (Stuck, s') => (Stuck, s')
    end.

Definition raise {S A} (e : exn) : M S A := fun s => (Raise e, s).

Definition gets {S A} (f : S -> A) : M S A := fun s => (Ok (f s), s).

Definition modify {S} (f : S -> S) : M S unit := fun s => (Ok tt, f s).

Declare Scope py_scope.
Delimit Scope py_scope with py.
Notation "x <- m ;; k" := (bind m (fun x => k))
  (at level 100, m at next level, right associativity) : py_scope.
Notation "m ;; k" := (bind m (fun _ => k))
  (at level 100, right associativity) : py_scope.
Local Open Scope py_scope.

(** ** Primitive steps on the world *)

Definition set_players (ps : gmap Z Player) (w : World) : World :=
  mkWorld (mkPlayerManager (_lavalink (self w)) ps (default_player (self w)))
          (heap w) (trace w).

Definition emit (e : event) : M World unit :=
  modify (fun w => mkWorld (self w) (heap w) (trace w ++ [e])).

(** Follow a node reference. *)
Definition deref (r : node_ref) : M World Node :=
  fun w => match heap w !! r with
           | Some n => (Ok n, w)
           | None => (Stuck, w)
           end.

Definition store (r : node_ref) (n : Node) : M World unit :=
  modify (fun w => mkWorld (self w) (<[r := n]> (heap w)) (trace w)).

(** End a call to a collaborator as its outcome says. *)
Definition finish (o : option exn) : M World unit :=
  match o with
  | None => ret tt
  | Some e => raise e
  end.

(** [self._lavalink._logger.info(msg)] *)
Definition logger_info (msg : string) : M World unit := emit (EvLogInfo msg).

(** Truth value of an optional string: [None] and [''] are false. *)
Definition truthy (s : option string) : bool :=
  match s with
  | Some s => negb (String.eqb s "")
  | None => false
  end.

(** ** PlayerManager.__init__ *)

(** The builtin [issubclass(player, BasePlayer)]: its first argument must
    be a class. *)
Definition builtin_issubclass (player : factory) (base : pyclass)
  : M Attrs bool :=
  match player with
  | FClass c => ret (issubclass c base)
  | FCallable _ => raise (TypeError "issubclass() arg 1 must be a class")
  end.

Definition __init__ (lavalink : Client) (player : factory) : M Attrs unit :=
  sub <- builtin_issubclass player BasePlayer ;;
  (if negb sub
   then raise (ValueError "Player must implement BasePlayer or DefaultPlayer.")
   else ret tt) ;;
  modify (fun a => mkAttrs (Some lavalink) (attr_players a) (attr_default_player a)) ;;
  modify (fun a => mkAttrs (attr_lavalink a) (Some ∅) (attr_default_player a)) ;;
  modify (fun a => mkAttrs (attr_lavalink a) (attr_players a) (Some player)).

(** [PlayerManager(lavalink, player)]: run [__init__] on a new object. *)
Definition new_PlayerManager (lavalink : Client) (player : factory)
  : result PlayerManager :=
  match __init__ lavalink player no_attrs with
  | (Ok _, mkAttrs (Some l) (Some ps) (Some (FClass d))) =>
      Ok (mkPlayerManager l ps d)
  | (Raise e, _) => Raise e
  | _ => Stuck
  end.

(** ** The methods *)

Section Methods.
Context {NM : NodeManager} {OC : Outcomes}.

(** [node._send(op=..., guildId=...)] *)
Definition node_send (r : node_ref) (c : Command) : M World unit :=
  emit (EvSend r c) ;; finish (_send r c).

(** [player.cleanup()] *)
Definition player_cleanup (p : Player) : M World unit :=
  emit (EvCleanup p) ;; finish (cleanup p).

(** [self._lavalink.node_manager.get_region(endpoint)] *)
Definition call_get_region (endpoint : string) : M World (option string) :=
  w <- gets id ;;
  let answer := get_region (node_manager (_lavalink (self w))) (heap w) endpoint in
  emit (EvGetRegion endpoint answer) ;;
  ret answer.

(** [self._lavalink.node_manager.find_ideal_node(region)] *)
Definition call_find_ideal_node (rgn : option string)
  : M World (option node_ref) :=
  w <- gets id ;;
  let answer := find_ideal_node (node_manager (_lavalink (self w))) (heap w) rgn in
  emit (EvFindIdealNode rgn answer) ;;
  ret answer.

(** [player.node.name], as the log lines read it. *)
Definition node_name (o : option node_ref) : M World string :=
  match o with
  | Some r => n <- deref r ;; ret (name n)
  | None => raise (AttributeError "'NoneType' object has no attribute 'name'")
  end.

(** [async def destroy(self, guild_id)].  The await of [_send] is a call
    like any other here: one task runs at a time. *)
Definition destroy (guild : Z) : M World unit :=
  ps <- gets (fun w => players (self w)) ;;
  match ps !! guild with
  | None => ret tt
  | Some player =>
      (* player = self.players.pop(guild_id) *)
      modify (set_players (delete guild ps)) ;;
      (* if player.node and player.node.available: *)
      match node player with
      | Some r =>
          n <- deref r ;;
          if available n
          then node_send r (mkCommand "destroy" (guild_id player))
          else ret tt
      | None => ret tt
      end ;;
      nm <- node_name (node player) ;;
      logger_info ("[NODE-" ++ nm ++ "] Successfully destroyed its player")
  end.

(** [def remove(self, guild_id)] *)
Definition remove (guild : Z) : M World unit :=
  ps <- gets (fun w => players (self w)) ;;
  match ps !! guild with
  | Some player =>
      modify (set_players (delete guild ps)) ;;
      player_cleanup player
  | None => ret tt
  end.

(** [def get(self, guild_id)]: [self.players.get(guild_id)] *)
Definition get (guild : Z) : M World (option Player) :=
  gets (fun w => players (self w) !! guild).

(** [def create(self, guild_id, region, endpoint, node)].  A node object is
    true, so [if node:] asks whether the argument is there; [if endpoint:]
    asks for a string that is there and not empty. *)
Definition create (guild : Z) (rgn : option string) (endpoint : option string)
    (explicit : option node_ref) : M World pyval :=
  ps <- gets (fun w => players (self w)) ;;
  match ps !! guild with
  | Some player => ret (VPlayer player)
  | None =>
      match explicit with
      | Some n => ret (VNode n)
      | None =>
          rgn <- (if truthy endpoint
                  then call_get_region (default "" endpoint)
                  else ret rgn) ;;
          found <- call_find_ideal_node rgn ;;
          match found with
          | None => raise (NodeException "No available nodes!")
          | Some r =>
              cls <- gets (fun w => default_player (self w)) ;;
              let player := new_player cls guild r in
              modify (fun w => set_players (<[guild := player]> (players (self w))) w) ;;
              (* node._original_players.append(player) *)
              n <- deref r ;;
              store r (mkNode (name n) (region n) (available n) (penalty n)
                              (_original_players n ++ [player])) ;;
              logger_info ("[NODE-" ++ name n ++ "] Successfully created a player") ;;
              ret (VPlayer player)
          end
      end
  end.

(** The defaults of the signature: [region='eu', endpoint=None, node=None]. *)
Definition create_default (guild : Z) : M World pyval :=
  create guild (Some "eu") None None.

(** The region [create] asks a node for: the one parsed from a true
    [endpoint], else the [region] argument. *)
Definition resolved_region (rgn endpoint : option string) (w : World)
  : option string :=
  if truthy endpoint
  then get_region (node_manager (_lavalink (self w))) (heap w) (default "" endpoint)
  else rgn.

(** The answer of the node manager to that region. *)
Definition resolved_node (rgn endpoint : option string) (w : World)
  : option node_ref :=
  find_ideal_node (node_manager (_lavalink (self w))) (heap w)
                  (resolved_region rgn endpoint w).

(** The calls of [create] up to and including the node selection. *)
Definition resolution_events (rgn endpoint : option string) (w : World)
  : list event :=
  (if truthy endpoint
   then [EvGetRegion (default "" endpoint) (resolved_region rgn endpoint w)]
   else [])
  ++ [EvFindIdealNode (resolved_region rgn endpoint w) (resolved_node rgn endpoint w)].

End Methods.

(** ** Reading a trace *)

(** The commands sent to nodes, in order. *)
Definition remote_commands (evs : list event) : list (node_ref * Command) :=
  omap (fun e => match e with EvSend r c => Some (r, c) | _ => None end) evs.

(** The players whose [cleanup] was called, in order. *)
Definition cleanup_calls (evs : list event) : list Player :=
  omap (fun e => match e with EvCleanup p => Some p | _ => None end) evs.

(** The node-selection calls, in order. *)
Definition selection_calls (evs : list event)
  : list (option string * option node_ref) :=
  omap (fun e => match e with EvFindIdealNode r a => Some (r, a) | _ => None end) evs.

(** The guard of [destroy]: [player.node and player.node.available]. *)
Definition node_usable (h : gmap node_ref Node) (p : Player) : bool :=
  match node p with
  | Some r => match h !! r with Some n => available n | None => false end
  | None => false
  end.

(** A player's node reference, when it has one, points to a node object. *)
Definition node_live (h : gmap node_ref Node) (p : Player) : Prop :=
  match node p with
  | Some r => is_Some (h !! r)
  | None => True
  end.

(** ** The node registry *)

(** Modelled from the spec: [node_manager.find_ideal_node] lives in
    nodemanager.py, which is not among the sources.  Section 4.1 gives its
    algorithm: with a region, the candidates are the available nodes of that
    region; without one, or when none matches, all available nodes; the
    answer is the candidate of lowest penalty, the first registered winning a
    tie, and none when there is no candidate. *)
Definition available_nodes (registered : list node_ref)
    (h : gmap node_ref Node) : list (node_ref * Node) :=
  omap (fun r =>
          match h !! r with
          | Some n => if available n then Some (r, n) else None
          | None => None
          end) registered.

Fixpoint lowest_penalty (best : node_ref * Node)
    (rest : list (node_ref * Node)) : node_ref * Node :=
  match rest with
  | [] => best
  | c :: rest' =>
      lowest_penalty (if Z.ltb (penalty (snd c)) (penalty (snd best)) then c else best)
                     rest'
  end.

Definition spec_find_ideal_node (registered : list node_ref)
    (h : gmap node_ref Node) (rgn : option string) : option node_ref :=
  let avail := available_nodes registered h in
  let in_region :=
    match rgn with
    | Some r => List.filter (fun c => String.eqb (region (snd c)) r) avail
    | None => []
    end in
  match (match in_region with [] => avail | _ => in_region end) with
  | [] => None
  | c :: cs => Some (fst (lowest_penalty c cs))
  end.

(** The registry of the spec, around any region parser ([get_region] is a
    collaborator the spec leaves open). *)
Definition spec_node_manager (parse : string -> option string) : NodeManager :=
  {| get_region := fun _ _ endpoint => parse endpoint;
     find_ideal_node := spec_find_ideal_node |}.

(** ** Worlds to run the methods in *)

Definition DefaultPlayer : pyclass :=
  PyClass 2 "DefaultPlayer" [BasePlayer] ["cleanup"; "play"].

(** A class with a [cleanup] method of its own that does not derive from
    [BasePlayer]. *)
Definition DuckPlayer : pyclass := PyClass 3 "DuckPlayer" [] ["cleanup"; "play"].

(** Another class that happens to be named BasePlayer. *)
Definition NamesakePlayer : pyclass := PyClass 4 "BasePlayer" [] ["cleanup"].

(** A function that returns objects with a [cleanup] method. *)
Definition make_player : factory := FCallable ["cleanup"; "play"].

(** A cluster whose two nodes are both unavailable, where guild 9 has a
    player and one line has been logged. *)
Definition NodeE : Node := mkNode "NodeE" "us" false 3 [].

Definition all_down : World :=
  mkWorld (mkPlayerManager (mkClient [4; 5]%positive)
             (<[9 := mkPlayer DefaultPlayer 9 (Some 4%positive)]> ∅) DefaultPlayer)
          (<[4%positive := mkNode "NodeD" "eu" false 0 []]>
             (<[5%positive := NodeE]> ∅))
          [EvLogInfo "[NODE-NodeD] Successfully created a player"].

(** Every call to a collaborator returns. *)
Definition all_return : Outcomes :=
  {| _send := fun _ _ => None; cleanup := fun _ => None |}.

(** [cleanup] raises. *)
Definition cleanup_raises : Outcomes :=
  {| _send := fun _ _ => None;
     cleanup := fun _ => Some (Foreign "cleanup failed") |}.

(** The three nodes of the spec's scenario: NodeA (eu, penalty 5), NodeB (eu,
    penalty 2), NodeC (us, penalty 1), all available. *)
Definition NodeA : Node := mkNode "NodeA" "eu" true 5 [].
Definition NodeB : Node := mkNode "NodeB" "eu" true 2 [].
Definition NodeC : Node := mkNode "NodeC" "us" true 1 [].

Definition three_nodes : gmap node_ref Node :=
  <[1%positive := NodeA]> (<[2%positive := NodeB]> (<[3%positive := NodeC]> ∅)).

Definition three_node_client : Client := mkClient [1; 2; 3]%positive.

(** A manager with no player yet, in a cluster of the three nodes. *)
Definition empty_cluster : World :=
  mkWorld (mkPlayerManager three_node_client ∅ DefaultPlayer) three_nodes [].

(** A cluster with no node at all. *)
Definition no_nodes : World :=
  mkWorld (mkPlayerManager (mkClient []) ∅ DefaultPlayer) ∅ [].

(** Guild 100 has a player on NodeB. *)
Definition player100 : Player := mkPlayer DefaultPlayer 100 (Some 2%positive).

Definition one_player : World :=
  mkWorld (mkPlayerManager three_node_client (<[100 := player100]> ∅) DefaultPlayer)
          three_nodes [].

(** Guild 7 has a player whose node is [None]. *)
Definition detached_player : Player := mkPlayer DefaultPlayer 7 None.

Definition detached_world : World :=
  mkWorld (mkPlayerManager three_node_client (<[7 := detached_player]> ∅) DefaultPlayer)
          three_nodes [].

(** Guild 9 has a player on a node that is not available. *)
Definition NodeD : Node := mkNode "NodeD" "eu" false 0 [].

Definition player9 : Player := mkPlayer DefaultPlayer 9 (Some 4%positive).

Definition unavailable_world : World :=
  mkWorld (mkPlayerManager (mkClient [4]%positive) (<[9 := player9]> ∅) DefaultPlayer)
          (<[4%positive := NodeD]> ∅) [].

(** ** Worlds a call leaves behind *)

(** The world once the entry of [guild] has been popped. *)
Definition evicted (guild : Z) (w : World) : World :=
  set_players (delete guild (players (self w))) w.

(** The world once the calls [evs] have been made. *)
Definition log_line (evs : list event) (w : World) : World :=
  mkWorld (self w) (heap w) (trace w ++ evs).

(** The line [destroy] logs. *)
Definition destroyed_message (n : Node) : string :=
  "[NODE-" ++ name n ++ "] Successfully destroyed its player".

(** The line [create] logs. *)
Definition created_message (n : Node) : string :=
  "[NODE-" ++ name n ++ "] Successfully created a player".

(** The node [n] once [p] has been appended to its [_original_players]. *)
Definition hosting (n : Node) (p : Player) : Node :=
  mkNode (name n) (region n) (available n) (penalty n)
         (_original_players n ++ [p]).

(** ** The ways a call can go *)

(** Every call of [create] goes one of five ways. *)
Inductive create_run {NM : NodeManager} (w : World) (guild : Z)
    (rgn endpoint : option string) (explicit : option node_ref)
  : result pyval -> World -> Prop :=
| create_run_registered player :
    players (self w) !! guild = Some player ->
    create_run w guild rgn endpoint explicit (Ok (VPlayer player)) w
| create_run_explicit n :
    players (self w) !! guild = None ->
    explicit = Some n ->
    create_run w guild rgn endpoint explicit (Ok (VNode n)) w
| create_run_no_node :
    players (self w) !! guild = None ->
    explicit = None ->
    resolved_node rgn endpoint w = None ->
    create_run w guild rgn endpoint explicit
      (Raise (NodeException "No available nodes!"))
      (log_line (resolution_events rgn endpoint w) w)
| create_run_dangling r :
    players (self w) !! guild = None ->
    explicit = None ->
    resolved_node rgn endpoint w = Some r ->
    heap w !! r = None ->
    create_run w guild rgn endpoint explicit Stuck
      (set_players
         (<[guild := new_player (default_player (self w)) guild r]>
            (players (self w)))
         (log_line (resolution_events rgn endpoint w) w))
| create_run_created r n :
    players (self w) !! guild = None ->
    explicit = None ->
    resolved_node rgn endpoint w = Some r ->
    heap w !! r = Some n ->
    create_run w guild rgn endpoint explicit
      (Ok (VPlayer (new_player (default_player (self w)) guild r)))
      (mkWorld
         (mkPlayerManager (_lavalink (self w))
            (<[guild := new_player (default_player (self w)) guild r]>
               (players (self w)))
            (default_player (self w)))
         (<[r := hosting n (new_player (default_player (self w)) guild r)]> (heap w))
         (trace w ++ resolution_events rgn endpoint w
            ++ [EvLogInfo (created_message n)])).

(** [_send] raises. *)
Definition send_raises : Outcomes :=
  {| _send := fun _ _ => Some (Foreign "connection lost");
     cleanup := fun _ => None |}.

(** ** The dictionary in its insertion order *)

(** A Python dict yields its entries in the order their keys were first
    inserted (the language guarantees it from Python 3.7 on).  Here the
    dictionary is the list of its entries in that order, one per key;
    [dict_view] forgets the order. *)

(** [d.get(k)] *)
Fixpoint dict_get (k : Z) (d : list (Z * Player)) : option Player :=
  match d with
  | [] => None
  | (k', v) :: d' => if Z.eqb k' k then Some v else dict_get k d'
  end.

(** [d[k] = v]: a key that is there keeps its place, a new key goes last. *)
Fixpoint dict_setitem (k : Z) (v : Player) (d : list (Z * Player))
  : list (Z * Player) :=
  match d with
  | [] => [(k, v)]
  | (k', v') :: d' =>
      if Z.eqb k' k then (k, v) :: d' else (k', v') :: dict_setitem k v d'
  end.

(** [d.pop(k)], the dictionary it leaves: the other entries, in order. *)
Fixpoint dict_pop (k : Z) (d : list (Z * Player)) : list (Z * Player) :=
  match d with
  | [] => []
  | (k', v') :: d' =>
      if Z.eqb k' k then dict_pop k d' else (k', v') :: dict_pop k d'
  end.

Definition dict_view (d : list (Z * Player)) : gmap Z Player := list_to_map d.

(** One entry per key. *)
Definition dict_wf (d : list (Z * Player)) : Prop := NoDup (fst <$> d).

(** The world, with [self.players] in its order. *)
Record OWorld : Type := mkOWorld {
  o_players : list (Z * Player);
  o_lavalink : Client;
  o_default_player : pyclass;
  o_heap : gmap node_ref Node;
  o_trace : list event
}.

(** The same world with the order of the dictionary forgotten. *)
Definition view (ow : OWorld) : World :=
  mkWorld (mkPlayerManager (o_lavalink ow) (dict_view (o_players ow))
                           (o_default_player ow))
          (o_heap ow) (o_trace ow).

(** Run a step that does not concern the dictionary. *)
Definition lift {A : Type} (m : M World A) : M OWorld A :=
  fun ow =>
    let (res, w') := m (view ow) in
    (res, mkOWorld (o_players ow) (_lavalink (self w')) (default_player (self w'))
                   (heap w') (trace w')).

Definition set_dict (d : list (Z * Player)) (ow : OWorld) : OWorld :=
  mkOWorld d (o_lavalink ow) (o_default_player ow) (o_heap ow) (o_trace ow).

(** The methods again, on the dictionary in its order. *)
Module Ordered.
Section Methods.
Context {NM : NodeManager} {OC : Outcomes}.

Definition destroy (guild : Z) : M OWorld unit :=
  ps <- gets o_players ;;
  match dict_get guild ps with
  | None => ret tt
  | Some player =>
      modify (set_dict (dict_pop guild ps)) ;;
      lift (match node player with
            | Some r =>
                n <- deref r ;;
                if available n
                then node_send r (mkCommand "destroy" (guild_id player))
                else ret tt
            | None => ret tt
            end) ;;
      nm <- lift (node_name (node player)) ;;
      lift (logger_info ("[NODE-" ++ nm ++ "] Successfully destroyed its player"))
  end.

Definition remove (guild : Z) : M OWorld unit :=
  ps <- gets o_players ;;
  match dict_get guild ps with
  | Some player =>
      modify (set_dict (dict_pop guild ps)) ;;
      lift (player_cleanup player)
  | None => ret tt
  end.

Definition get (guild : Z) : M OWorld (option Player) :=
  gets (fun ow => dict_get guild (o_players ow)).

Definition create (guild : Z) (rgn : option string) (endpoint : option string)
    (explicit : option node_ref) : M OWorld pyval :=
  ps <- gets o_players ;;
  match dict_get guild ps with
  | Some player => ret (VPlayer player)
  | None =>
      match explicit with
      | Some n => ret (VNode n)
      | None =>
          rgn <- (if truthy endpoint
                  then lift (call_get_region (default "" endpoint))
                  else ret rgn) ;;
          found <- lift (call_find_ideal_node rgn) ;;
          match found with
          | None => raise (NodeException "No available nodes!")
          | Some r =>
              cls <- gets o_default_player ;;
              let player := new_player cls guild r in
              modify (fun ow => set_dict (dict_setitem guild player (o_players ow)) ow) ;;
              n <- lift (deref r) ;;
              lift (store r (mkNode (name n) (region n) (available n) (penalty n)
                                    (_original_players n ++ [player]))) ;;
              lift (logger_info ("[NODE-" ++ name n ++ "] Successfully created a player")) ;;
              ret (VPlayer player)
          end
      end
  end.

End Methods.
End Ordered.

(** ** The accessors *)

(** [def __len__(self)]: [len(self.players)] *)
Definition __len__ (ow : OWorld) : nat := length (o_players ow).

(** [def __iter__(self)]: the pairs the generator yields when it is run to
    its end. *)
Definition __iter__ (ow : OWorld) : list (Z * Player) := o_players ow.

(** [def values(self)]: the players the generator yields when it is run to
    its end. *)
Definition values (ow : OWorld) : list Player := snd <$> o_players ow.

(** [def find_all(self, predicate=None)]; [predicate] gives the truth value
    of what the Python predicate returns. *)
Definition find_all (predicate : option (Player -> bool)) (ow : OWorld)
  : list Player :=
  match predicate with
  | None => values ow
  | Some f => List.filter f (values ow)
  end.

(** A manager with two players, guild 100 created before guild 200. *)
Definition player200 : Player := mkPlayer DefaultPlayer 200 (Some 3%positive).

Definition two_players : OWorld :=
  mkOWorld [(100, player100); (200, player200)] three_node_client DefaultPlayer
           three_nodes [].

(** A manager without players, in the three-node cluster. *)
Definition empty_ordered : OWorld :=
  mkOWorld [] three_node_client DefaultPlayer three_nodes [].

(** ** Relating the two worlds *)

(** A step that leaves the manager object alone. *)
Definition keeps_self {A : Type} (m : M World A) : Prop :=
  forall w : World, self (snd (m w)) = self w.

(** A step that leaves the dictionary alone. *)
Definition keeps_dict {A : Type} (m : M OWorld A) : Prop :=
  forall ow : OWorld, o_players (snd (m ow)) = o_players ow.

(** [mo], on the ordered world, does what [m] does once the order is
    forgotten. *)
Definition simulates {A : Type} (mo : M OWorld A) (m : M World A) : Prop :=
  forall ow : OWorld, m (view ow) = (fst (mo ow), view (snd (mo ow))).

(** The ordered world once the calls [evs] have been made. *)
Definition o_log (evs : list event) (ow : OWorld) : OWorld :=
  mkOWorld (o_players ow) (o_lavalink ow) (o_default_player ow) (o_heap ow)
           (o_trace ow ++ evs).

(** * Properties *)

(** ** Running the monad *)

Lemma bind_Ok {S A B} (m : M S A) (k : A -> M S B) s a s' :
  m s = (Ok a, s') -> bind m k s = k a s'.
Proof. intros E. unfold bind. rewrite E. reflexivity. Qed.

Lemma bind_Raise {S A B} (m : M S A) (k : A -> M S B) s e s' :
  m s = (Raise e, s') -> bind m k s = (Raise e, s').
Proof. intros E. unfold bind. rewrite E. reflexivity. Qed.

Lemma bind_gets {S A B} (f : S -> A) (k : A -> M S B) s :
  bind (gets f) k s = k (f s) s.
Proof. reflexivity. Qed.

Lemma bind_modify {S B} (f : S -> S) (k : unit -> M S B) s :
  bind (modify f) k s = k tt (f s).
Proof. reflexivity. Qed.

Lemma deref_live r n w : heap w !! r = Some n -> deref r w = (Ok n, w).
Proof. intros E. unfold deref. rewrite E. reflexivity. Qed.

Lemma players_set_players ps w : players (self (set_players ps w)) = ps.
Proof. reflexivity. Qed.

Lemma get_absent guild w :
  players (self w) !! guild = None -> get guild w = (Ok None, w).
Proof. intros E. unfold get, gets. rewrite E. reflexivity. Qed.

Lemma evicted_absent guild evs w :
  players (self (log_line evs (evicted guild w))) !! guild = None.
Proof. apply lookup_delete_eq. Qed.

Lemma remote_commands_app evs1 evs2 :
  remote_commands (evs1 ++ evs2) = remote_commands evs1 ++ remote_commands evs2.
Proof. apply omap_app. Qed.

Lemma selection_calls_app evs1 evs2 :
  selection_calls (evs1 ++ evs2) = selection_calls evs1 ++ selection_calls evs2.
Proof. apply omap_app. Qed.

(** ** create on a guild that has a player *)

Lemma create_registered {NM : NodeManager} (w : World) (guild : Z)
    (player : Player) (rgn endpoint : option string) (explicit : option node_ref) :
  players (self w) !! guild = Some player ->
  create guild rgn endpoint explicit w = (Ok (VPlayer player), w).
Proof.
  intros Hin. unfold create. rewrite bind_gets, Hin. reflexivity.
Qed.

(** C4: when the guild already has a player, [create] returns that very
    player whatever region, endpoint and node it is given, and the world it
    leaves is the world it found: the dictionary and the node objects are
    untouched and the trace has no new call, so no node was selected. *)
Theorem create_existing_player {NM : NodeManager} (w : World) (guild : Z)
    (player : Player) (rgn endpoint : option string) (explicit : option node_ref) :
  players (self w) !! guild = Some player ->
  create guild rgn endpoint explicit w = (Ok (VPlayer player), w).
Proof. apply create_registered. Qed.

Lemma create_existing_player_witness :
  @create (spec_node_manager (fun _ => None)) 100 (Some "us") None (Some 3%positive)
          one_player
  = (Ok (VPlayer player100), one_player).
Proof.
  apply (@create_existing_player (spec_node_manager (fun _ => None))).
  reflexivity.
Defined.

(** ** destroy on a guild that has no player *)

(** C8: for a guild that is not in the dictionary, [destroy] returns
    normally and leaves the world as it was: nothing is sent and the
    dictionary is unchanged. *)
Theorem destroy_unregistered_noop {OC : Outcomes} (w : World) (guild : Z) :
  players (self w) !! guild = None ->
  destroy guild w = (Ok tt, w).
Proof.
  intros Hout. unfold destroy. rewrite bind_gets, Hout. reflexivity.
Qed.

Lemma destroy_unregistered_noop_witness :
  @destroy all_return 5 one_player = (Ok tt, one_player).
Proof. apply (@destroy_unregistered_noop all_return). reflexivity. Defined.

(** ** remove *)

Lemma remove_registered {OC : Outcomes} (w : World) (guild : Z) (player : Player) :
  players (self w) !! guild = Some player ->
  remove guild w
  = player_cleanup player (set_players (delete guild (players (self w))) w).
Proof.
  intros Hin. unfold remove. rewrite bind_gets, Hin, bind_modify. reflexivity.
Qed.

Lemma player_cleanup_run {OC : Outcomes} (player : Player) (w : World) :
  player_cleanup player w
  = (match cleanup player with None => Ok tt | Some e => Raise e end,
     mkWorld (self w) (heap w) (trace w ++ [EvCleanup player])).
Proof.
  unfold player_cleanup, emit. rewrite bind_modify.
  destruct (cleanup player); reflexivity.
Qed.

(** C9: for a guild in the dictionary, [remove] deletes its entry and calls
    the [cleanup] of the player that was there exactly once; the calls it
    adds to the trace hold no command to a node, and no node object changes.
    For a guild that is not in the dictionary, [remove] changes nothing and
    calls nothing. *)
Theorem remove_evicts_and_cleans_up {OC : Outcomes} (w : World) (guild : Z) :
  (forall player : Player,
      players (self w) !! guild = Some player ->
      exists evs : list event,
        players (self (snd (remove guild w))) = delete guild (players (self w)) /\
        heap (snd (remove guild w)) = heap w /\
        trace (snd (remove guild w)) = trace w ++ evs /\
        cleanup_calls evs = [player] /\
        remote_commands evs = []) /\
  (players (self w) !! guild = None -> remove guild w = (Ok tt, w)).
Proof.
  split.
  - intros player Hin. exists [EvCleanup player].
    rewrite (remove_registered w guild player Hin), player_cleanup_run.
    repeat split; reflexivity.
  - intros Hout. unfold remove. rewrite bind_gets, Hout. reflexivity.
Qed.

Lemma remove_evicts_and_cleans_up_witness :
  (exists evs : list event,
      players (self (snd (@remove all_return 100 one_player)))
      = delete 100 (players (self one_player)) /\
      heap (snd (@remove all_return 100 one_player)) = heap one_player /\
      trace (snd (@remove all_return 100 one_player)) = trace one_player ++ evs /\
      cleanup_calls evs = [player100] /\
      remote_commands evs = []) /\
  @remove all_return 5 one_player = (Ok tt, one_player).
Proof.
  split.
  - apply (proj1 (@remove_evicts_and_cleans_up all_return one_player 100) player100).
    reflexivity.
  - apply (proj2 (@remove_evicts_and_cleans_up all_return one_player 5)).
    reflexivity.
Defined.

(** C10: [remove] deletes the entry first and calls [cleanup] in the world
    that results; when [cleanup] raises, [remove] raises the same exception
    and the entry stays deleted: [get] answers [None] afterwards. *)
Theorem remove_cleanup_raises_entry_gone {OC : Outcomes} (w : World) (guild : Z)
    (player : Player) (e : exn) :
  players (self w) !! guild = Some player ->
  cleanup player = Some e ->
  exists w1 w' : World,
    players (self w1) !! guild = None /\
    remove guild w = player_cleanup player w1 /\
    remove guild w = (Raise e, w') /\
    players (self w') !! guild = None /\
    get guild w' = (Ok None, w').
Proof.
  intros Hin Hraise.
  exists (set_players (delete guild (players (self w))) w).
  eexists. split; [| split; [| split; [| split]]].
  - rewrite players_set_players. apply lookup_delete_eq.
  - apply remove_registered, Hin.
  - rewrite (remove_registered w guild player Hin), player_cleanup_run, Hraise.
    reflexivity.
  - simpl. apply lookup_delete_eq.
  - unfold get, gets. simpl. rewrite lookup_delete_eq. reflexivity.
Qed.

Lemma remove_cleanup_raises_entry_gone_witness :
  exists w1 w' : World,
    players (self w1) !! 100 = None /\
    @remove cleanup_raises 100 one_player = @player_cleanup cleanup_raises player100 w1 /\
    @remove cleanup_raises 100 one_player = (Raise (Foreign "cleanup failed"), w') /\
    players (self w') !! 100 = None /\
    get 100 w' = (Ok None, w').
Proof.
  apply (@remove_cleanup_raises_entry_gone cleanup_raises one_player 100 player100
           (Foreign "cleanup failed")); reflexivity.
Defined.

(** ** destroy *)

(** A player without node: the entry goes, nothing is sent, and the log line
    raises on [player.node.name]. *)
Lemma destroy_without_node {OC : Outcomes} (w : World) (guild : Z) (player : Player) :
  players (self w) !! guild = Some player ->
  node player = None ->
  destroy guild w
  = (Raise (AttributeError "'NoneType' object has no attribute 'name'"),
     evicted guild w).
Proof.
  intros Hin Hnone. unfold destroy.
  rewrite bind_gets, Hin, bind_modify, Hnone. reflexivity.
Qed.

(** A player on a node that is not available: the entry goes, nothing is
    sent, and [destroy] returns after its log line. *)
Lemma destroy_unavailable_node {OC : Outcomes} (w : World) (guild : Z)
    (player : Player) (r : node_ref) (n : Node) :
  players (self w) !! guild = Some player ->
  node player = Some r ->
  heap w !! r = Some n ->
  available n = false ->
  destroy guild w
  = (Ok tt, log_line [EvLogInfo (destroyed_message n)] (evicted guild w)).
Proof.
  intros Hin Hnode Hlive Hdown. unfold destroy.
  rewrite bind_gets, Hin, bind_modify, Hnode.
  assert (Hd : forall w1, heap w1 = heap w -> deref r w1 = (Ok n, w1))
    by (intros w1 E; apply deref_live; rewrite E; exact Hlive).
  erewrite bind_Ok; cycle 1.
  { erewrite bind_Ok by (apply Hd; reflexivity). rewrite Hdown. reflexivity. }
  unfold node_name.
  erewrite bind_Ok; cycle 1.
  { erewrite bind_Ok by (apply Hd; reflexivity). reflexivity. }
  reflexivity.
Qed.

(** A player on an available node: the entry goes, one [destroy] command
    carrying the player's guild goes to that node, and [destroy] ends as the
    send does. *)
Lemma destroy_available_node {OC : Outcomes} (w : World) (guild : Z)
    (player : Player) (r : node_ref) (n : Node) :
  players (self w) !! guild = Some player ->
  node player = Some r ->
  heap w !! r = Some n ->
  available n = true ->
  destroy guild w
  = match _send r (mkCommand "destroy" (guild_id player)) with
    | None =>
        (Ok tt,
         log_line [EvSend r (mkCommand "destroy" (guild_id player));
                   EvLogInfo (destroyed_message n)] (evicted guild w))
    | Some e =>
        (Raise e,
         log_line [EvSend r (mkCommand "destroy" (guild_id player))]
                  (evicted guild w))
    end.
Proof.
  intros Hin Hnode Hlive Hup. unfold destroy.
  rewrite bind_gets, Hin, bind_modify, Hnode.
  assert (Hd : forall w1, heap w1 = heap w -> deref r w1 = (Ok n, w1))
    by (intros w1 E; apply deref_live; rewrite E; exact Hlive).
  set (cmd := mkCommand "destroy" (guild_id player)).
  assert (Hsend : node_send r cmd (evicted guild w)
                  = (match _send r cmd with None => Ok tt | Some e => Raise e end,
                     log_line [EvSend r cmd] (evicted guild w))).
  { unfold node_send, emit. rewrite bind_modify.
    destruct (_send r cmd); reflexivity. }
  destruct (_send r cmd) as [e|].
  - erewrite bind_Raise; [reflexivity |].
    erewrite bind_Ok by (apply Hd; reflexivity). rewrite Hup. exact Hsend.
  - erewrite bind_Ok; cycle 1.
    { erewrite bind_Ok by (apply Hd; reflexivity). rewrite Hup. exact Hsend. }
    unfold node_name.
    erewrite bind_Ok; cycle 1.
    { erewrite bind_Ok by (apply Hd; reflexivity). reflexivity. }
    unfold logger_info, emit, modify, log_line. simpl.
    rewrite <- app_assoc. reflexivity.
Qed.

(** C5: for a guild in the dictionary, once [destroy] is over (returned or
    raised) [get] answers [None]; and the commands it sent are exactly one
    [destroy] command with [guildId] the player's guild, to the player's
    node, when that node was there and available at the call, and none
    otherwise. *)
Theorem destroy_evicts_and_notifies {OC : Outcomes} (w : World) (guild : Z)
    (player : Player) :
  players (self w) !! guild = Some player ->
  node_live (heap w) player ->
  exists (res : result unit) (w' : World) (evs : list event),
    destroy guild w = (res, w') /\
    res <> Stuck /\
    get guild w' = (Ok None, w') /\
    trace w' = trace w ++ evs /\
    (node_usable (heap w) player = true ->
       exists r : node_ref,
         node player = Some r /\
         remote_commands evs = [(r, mkCommand "destroy" (guild_id player))]) /\
    (node_usable (heap w) player = false -> remote_commands evs = []).
Proof.
  intros Hin Hlive. unfold node_live, node_usable in *.
  destruct (node player) as [r|] eqn:Hnode.
  - destruct Hlive as [n Hn]. rewrite Hn.
    destruct (available n) eqn:Hav.
    + rewrite (destroy_available_node w guild player r n Hin Hnode Hn Hav).
      destruct (_send r _) as [e|]; do 3 eexists;
        (split; [reflexivity |]); (split; [discriminate |]);
        (split; [apply get_absent, evicted_absent |]); (split; [reflexivity |]);
        (split; [intros _; exists r; split; reflexivity | discriminate]).
    + rewrite (destroy_unavailable_node w guild player r n Hin Hnode Hn Hav).
      do 3 eexists.
      (split; [reflexivity |]); (split; [discriminate |]);
        (split; [apply get_absent, evicted_absent |]); (split; [reflexivity |]).
      split; [discriminate | reflexivity].
  - rewrite (destroy_without_node w guild player Hin Hnode).
    exists (Raise (AttributeError "'NoneType' object has no attribute 'name'")),
      (evicted guild w), [].
    (split; [reflexivity |]); (split; [discriminate |]);
      (split; [apply get_absent, lookup_delete_eq |]).
    split; [simpl; rewrite app_nil_r; reflexivity |].
    split; [discriminate | reflexivity].
Qed.

Lemma destroy_evicts_and_notifies_witness :
  exists (res : result unit) (w' : World) (evs : list event),
    @destroy all_return 100 one_player = (res, w') /\
    res <> Stuck /\
    get 100 w' = (Ok None, w') /\
    trace w' = trace one_player ++ evs /\
    (node_usable (heap one_player) player100 = true ->
       exists r : node_ref,
         node player100 = Some r /\
         remote_commands evs = [(r, mkCommand "destroy" (guild_id player100))]) /\
    (node_usable (heap one_player) player100 = false -> remote_commands evs = []).
Proof.
  apply (@destroy_evicts_and_notifies all_return one_player 100 player100).
  - reflexivity.
  - exists NodeB. reflexivity.
Defined.

Example destroy_unavailable_example :
  @destroy all_return 9 unavailable_world
  = (Ok tt,
     log_line [EvLogInfo "[NODE-NodeD] Successfully destroyed its player"]
              (evicted 9 unavailable_world)).
Proof.
  apply (@destroy_unavailable_node all_return unavailable_world 9 player9
           4%positive NodeD); reflexivity.
Qed.

(** C2, at a player whose node is [None]: the entry is deleted and nothing
    is sent, but [destroy] then raises [AttributeError] from the log line
    instead of returning. *)
Theorem destroy_detached_player_raises {OC : Outcomes} :
  destroy 7 detached_world
  = (Raise (AttributeError "'NoneType' object has no attribute 'name'"),
     evicted 7 detached_world) /\
  players (self (evicted 7 detached_world)) !! 7 = None /\
  remote_commands (trace (evicted 7 detached_world)) = [].
Proof.
  split; [| split].
  - apply (destroy_without_node detached_world 7 detached_player); reflexivity.
  - apply lookup_delete_eq.
  - reflexivity.
Qed.

(** ** create on a guild that has no player *)

(** With a node argument, [create] returns that node at once. *)
Lemma create_explicit_node_early_return {NM : NodeManager} (w : World) (guild : Z)
    (rgn endpoint : option string) (n : node_ref) :
  players (self w) !! guild = None ->
  create guild rgn endpoint (Some n) w = (Ok (VNode n), w).
Proof.
  intros Hout. unfold create. rewrite bind_gets, Hout. reflexivity.
Qed.

(** Without one, it asks the node manager; this is the run up to the answer. *)
Lemma create_resolution {NM : NodeManager} (w : World) (guild : Z)
    (rgn endpoint : option string) :
  players (self w) !! guild = None ->
  create guild rgn endpoint None w
  = match resolved_node rgn endpoint w with
    | None => raise (NodeException "No available nodes!")
    | Some r =>
        cls <- gets (fun w => default_player (self w)) ;;
        let player := new_player cls guild r in
        modify (fun w => set_players (<[guild := player]> (players (self w))) w) ;;
        n <- deref r ;;
        store r (mkNode (name n) (region n) (available n) (penalty n)
                        (_original_players n ++ [player])) ;;
        logger_info ("[NODE-" ++ name n ++ "] Successfully created a player") ;;
        ret (VPlayer player)
    end (log_line (resolution_events rgn endpoint w) w).
Proof.
  intros Hout. unfold create. rewrite bind_gets, Hout.
  unfold resolution_events, resolved_node, resolved_region.
  destruct (truthy endpoint); [| reflexivity].
  unfold log_line. rewrite (app_assoc (trace w)). reflexivity.
Qed.

(** No node found: [create] raises, having only asked. *)
Lemma create_no_candidate {NM : NodeManager} (w : World) (guild : Z)
    (rgn endpoint : option string) :
  players (self w) !! guild = None ->
  resolved_node rgn endpoint w = None ->
  create guild rgn endpoint None w
  = (Raise (NodeException "No available nodes!"),
     log_line (resolution_events rgn endpoint w) w).
Proof.
  intros Hout Hnone. rewrite (create_resolution w guild rgn endpoint Hout), Hnone.
  reflexivity.
Qed.

(** A node found: the calls [create] makes are those of the resolution and,
    when it gets that far, its log line. *)
Lemma create_candidate_trace {NM : NodeManager} (w : World) (guild : Z)
    (rgn endpoint : option string) (r : node_ref) :
  players (self w) !! guild = None ->
  resolved_node rgn endpoint w = Some r ->
  exists evs : list event,
    trace (snd (create guild rgn endpoint None w))
    = trace w ++ resolution_events rgn endpoint w ++ evs /\
    selection_calls evs = [].
Proof.
  intros Hout Hsome. rewrite (create_resolution w guild rgn endpoint Hout), Hsome.
  rewrite bind_gets, bind_modify.
  destruct (heap w !! r) as [n|] eqn:Hr.
  - erewrite bind_Ok by (apply deref_live; exact Hr).
    exists [EvLogInfo ("[NODE-" ++ name n ++ "] Successfully created a player")].
    split; [| reflexivity].
    unfold store, logger_info, emit. rewrite !bind_modify. simpl.
    rewrite <- app_assoc. reflexivity.
  - exists []. split; [| reflexivity].
    unfold bind, deref. simpl. rewrite app_nil_r.
    destruct (heap w !! r); [discriminate | reflexivity].
Qed.

Lemma selection_calls_resolution {NM : NodeManager} (rgn endpoint : option string)
    (w : World) :
  selection_calls (resolution_events rgn endpoint w)
  = [(resolved_region rgn endpoint w, resolved_node rgn endpoint w)].
Proof. unfold resolution_events. destruct (truthy endpoint); reflexivity. Qed.

Lemma remote_commands_resolution {NM : NodeManager} (rgn endpoint : option string)
    (w : World) :
  remote_commands (resolution_events rgn endpoint w) = [].
Proof. unfold resolution_events. destruct (truthy endpoint); reflexivity. Qed.

(** C3: for a guild without player and no node argument, in every state in
    which the node manager finds no node for the region [create] resolves,
    [create] raises [NodeException] (the spec's NoAvailableNodeError) after
    asking the node manager once; the manager object, and so its
    dictionary, is the one it found, no node object has changed, and
    nothing was sent. *)
Theorem create_no_node_raises {NM : NodeManager} (w : World) (guild : Z)
    (rgn endpoint : option string) :
  players (self w) !! guild = None ->
  find_ideal_node (node_manager (_lavalink (self w))) (heap w)
                  (resolved_region rgn endpoint w) = None ->
  exists (w' : World) (evs : list event),
    create guild rgn endpoint None w
    = (Raise (NodeException "No available nodes!"), w') /\
    self w' = self w /\
    heap w' = heap w /\
    trace w' = trace w ++ evs /\
    selection_calls evs = [(resolved_region rgn endpoint w, None)] /\
    remote_commands evs = [] /\
    cleanup_calls evs = [].
Proof.
  intros Hguild Hfound.
  exists (log_line (resolution_events rgn endpoint w) w),
    (resolution_events rgn endpoint w).
  split; [apply create_no_candidate; assumption |].
  split; [reflexivity |]. split; [reflexivity |]. split; [reflexivity |].
  split; [| split].
  - rewrite selection_calls_resolution. unfold resolved_node. rewrite Hfound.
    reflexivity.
  - apply remote_commands_resolution.
  - unfold resolution_events. destruct (truthy endpoint); reflexivity.
Qed.

Lemma create_no_node_raises_witness :
  exists (w' : World) (evs : list event),
    @create (spec_node_manager (fun _ => Some "us")) 200 (Some "eu")
            (Some "us-east1.discord.gg") None all_down
    = (Raise (NodeException "No available nodes!"), w') /\
    self w' = self all_down /\
    heap w' = heap all_down /\
    trace w' = trace all_down ++ evs /\
    selection_calls evs
    = [(@resolved_region (spec_node_manager (fun _ => Some "us")) (Some "eu")
          (Some "us-east1.discord.gg") all_down, None)] /\
    remote_commands evs = [] /\
    cleanup_calls evs = [].
Proof.
  apply (@create_no_node_raises (spec_node_manager (fun _ => Some "us")) all_down 200
           (Some "eu") (Some "us-east1.discord.gg")); reflexivity.
Defined.

(** C1, at an empty dictionary and the node argument NodeC: [create] hands
    back the node itself; no player is made, the dictionary has no entry for
    the guild and the node hosts no player. *)
Theorem create_explicit_node_returns_node {NM : NodeManager} :
  create 1 (Some "eu") None (Some 3%positive) empty_cluster
  = (Ok (VNode 3%positive), empty_cluster) /\
  players (self empty_cluster) !! 1 = None /\
  _original_players <$> heap empty_cluster !! 3%positive = Some [].
Proof.
  split; [| split].
  - apply create_explicit_node_early_return. reflexivity.
  - reflexivity.
  - reflexivity.
Qed.

(** ** create with the defaults of its signature *)

(** Whatever the node manager, a call that leaves region, endpoint and node
    out asks it for a node of region ['eu']. *)
Lemma create_default_asks_for_eu {NM : NodeManager} (w : World) (guild : Z) :
  players (self w) !! guild = None ->
  exists evs : list event,
    trace (snd (create_default guild w)) = trace w ++ evs /\
    selection_calls evs
    = [(Some "eu",
        find_ideal_node (node_manager (_lavalink (self w))) (heap w) (Some "eu"))].
Proof.
  intros Hout. unfold create_default.
  destruct (resolved_node (Some "eu") None w) as [r|] eqn:Hfound.
  - destruct (create_candidate_trace w guild (Some "eu") None r Hout Hfound)
      as (evs & Htrace & Hquiet).
    exists (resolution_events (Some "eu") None w ++ evs). split; [exact Htrace |].
    rewrite selection_calls_app, Hquiet, selection_calls_resolution.
    reflexivity.
  - rewrite (create_no_candidate w guild (Some "eu") None Hout Hfound).
    exists (resolution_events (Some "eu") None w). split; [reflexivity |].
    apply selection_calls_resolution.
Qed.

(** The registry of the spec answers a region that has an available node
    with a node of that region. *)
Lemma lowest_penalty_In (best : node_ref * Node) (rest : list (node_ref * Node)) :
  In (lowest_penalty best rest) (best :: rest).
Proof.
  revert best. induction rest as [| c rest IH]; intros best; simpl.
  - left. reflexivity.
  - destruct (IH (if Z.ltb (penalty (snd c)) (penalty (snd best)) then c else best))
      as [E | Hin].
    + rewrite <- E. destruct (Z.ltb _ _); [right; left | left]; reflexivity.
    + right. right. exact Hin.
Qed.

Lemma lowest_penalty_least (best : node_ref * Node) (rest : list (node_ref * Node)) :
  forall c, In c (best :: rest) ->
            penalty (snd (lowest_penalty best rest)) <= penalty (snd c).
Proof.
  revert best. induction rest as [| c' rest IH]; intros best c Hin.
  - destruct Hin as [<- | []]. simpl. lia.
  - simpl.
    set (b := if Z.ltb (penalty (snd c')) (penalty (snd best)) then c' else best).
    assert (Hb : penalty (snd b) <= penalty (snd best) /\
                 penalty (snd b) <= penalty (snd c')).
    { unfold b. destruct (Z.ltb_spec (penalty (snd c')) (penalty (snd best))); lia. }
    assert (Hmin : penalty (snd (lowest_penalty b rest)) <= penalty (snd b))
      by (apply IH; left; reflexivity).
    destruct Hin as [<- | [<- | Hin]]; [lia | lia |].
    apply IH. right. exact Hin.
Qed.

Lemma spec_find_ideal_node_in_region (registered : list node_ref)
    (h : gmap node_ref Node) (rgn : string) (r0 : node_ref) (n0 : Node) :
  In (r0, n0) (available_nodes registered h) ->
  region n0 = rgn ->
  exists (r : node_ref) (n : Node),
    spec_find_ideal_node registered h (Some rgn) = Some r /\
    In (r, n) (available_nodes registered h) /\
    region n = rgn.
Proof.
  intros Hin Hrgn. unfold spec_find_ideal_node.
  set (avail := available_nodes registered h) in *.
  set (cands := List.filter (fun c => String.eqb (region (snd c)) rgn) avail).
  assert (Hc : In (r0, n0) cands).
  { apply filter_In. split; [exact Hin |]. simpl. apply String.eqb_eq, Hrgn. }
  destruct cands as [| c cs] eqn:Ecands; [destruct Hc |].
  pose proof (lowest_penalty_In c cs) as Hbest.
  rewrite <- Ecands in Hbest. apply filter_In in Hbest as [Havail Hregion].
  destruct (lowest_penalty c cs) as [r n]. exists r, n.
  split; [reflexivity |]. split; [exact Havail |].
  apply String.eqb_eq. exact Hregion.
Qed.

(** Its candidates are available nodes. *)
Lemma available_nodes_available (registered : list node_ref)
    (h : gmap node_ref Node) (r : node_ref) (n : Node) :
  In (r, n) (available_nodes registered h) ->
  h !! r = Some n /\ available n = true.
Proof.
  unfold available_nodes. intros Hin.
  apply list_elem_of_In, list_elem_of_omap in Hin as (r' & _ & Hr').
  destruct (h !! r') as [n'|] eqn:E; [| discriminate].
  destruct (available n') eqn:Hav; [| discriminate].
  injection Hr' as -> ->. split; [exact E | exact Hav].
Qed.

(** Without a region it answers an available node of least penalty. *)
Lemma spec_find_ideal_node_no_region (registered : list node_ref)
    (h : gmap node_ref Node) (r : node_ref) :
  spec_find_ideal_node registered h None = Some r ->
  exists n : Node,
    In (r, n) (available_nodes registered h) /\
    forall c, In c (available_nodes registered h) -> penalty n <= penalty (snd c).
Proof.
  unfold spec_find_ideal_node.
  destruct (available_nodes registered h) as [| c cs]; [discriminate |].
  intros [= <-].
  exists (snd (lowest_penalty c cs)). split.
  - rewrite <- surjective_pairing. apply lowest_penalty_In.
  - apply lowest_penalty_least.
Qed.

(** C6, in the spec's three-node cluster under the spec's registry: a call
    with the defaults asks for region ['eu'] and puts the player on NodeB
    (penalty 2), although NodeC (penalty 1), which the registry picks when
    no region is given, has the lowest penalty of the cluster. *)
Theorem create_default_stays_in_eu :
  fst (@create_default (spec_node_manager (fun _ => None)) 100 empty_cluster)
  = Ok (VPlayer (new_player DefaultPlayer 100 2%positive)) /\
  selection_calls
    (trace (snd (@create_default (spec_node_manager (fun _ => None)) 100
                   empty_cluster)))
  = [(Some "eu", Some 2%positive)] /\
  spec_find_ideal_node (node_manager three_node_client) three_nodes None
  = Some 3%positive /\
  penalty NodeC < penalty NodeB.
Proof.
  split; [vm_compute; reflexivity |]. split; [vm_compute; reflexivity |].
  split; [vm_compute; reflexivity | reflexivity].
Qed.

(** ** Construction *)

(** C7, as the code has it: a class that is not a subclass of [BasePlayer]
    makes [__init__] raise [ValueError] (the spec's
    InvalidConfigurationError), and an argument that is not a class makes it
    raise [TypeError]; in both cases no attribute of the instance has been
    set.  With a subclass of [BasePlayer], [__init__] returns and the
    manager has an empty dictionary. *)
Theorem init_validates_player_class (lavalink : Client) :
  (forall c : pyclass,
      issubclass c BasePlayer = false ->
      (forall a : Attrs,
          __init__ lavalink (FClass c) a
          = (Raise (ValueError "Player must implement BasePlayer or DefaultPlayer."),
             a)) /\
      new_PlayerManager lavalink (FClass c)
      = Raise (ValueError "Player must implement BasePlayer or DefaultPlayer.")) /\
  (forall attrs : list string,
      (forall a : Attrs,
          __init__ lavalink (FCallable attrs) a
          = (Raise (TypeError "issubclass() arg 1 must be a class"), a)) /\
      new_PlayerManager lavalink (FCallable attrs)
      = Raise (TypeError "issubclass() arg 1 must be a class")) /\
  (forall c : pyclass,
      issubclass c BasePlayer = true ->
      __init__ lavalink (FClass c) no_attrs
      = (Ok tt, mkAttrs (Some lavalink) (Some ∅) (Some (FClass c))) /\
      new_PlayerManager lavalink (FClass c) = Ok (mkPlayerManager lavalink ∅ c)).
Proof.
  unfold new_PlayerManager, __init__, builtin_issubclass.
  split; [| split].
  - intros c Hsub. split; [intros a |]; unfold bind, ret; rewrite Hsub; reflexivity.
  - intros attrs. split; [intros a |]; reflexivity.
  - intros c Hsub. unfold bind, ret. rewrite Hsub. split; reflexivity.
Qed.

Lemma init_validates_player_class_witness :
  ((forall a : Attrs,
       __init__ three_node_client (FClass NamesakePlayer) a
       = (Raise (ValueError "Player must implement BasePlayer or DefaultPlayer."),
          a)) /\
   new_PlayerManager three_node_client (FClass NamesakePlayer)
   = Raise (ValueError "Player must implement BasePlayer or DefaultPlayer.")) /\
  (__init__ three_node_client (FClass DefaultPlayer) no_attrs
   = (Ok tt, mkAttrs (Some three_node_client) (Some ∅) (Some (FClass DefaultPlayer))) /\
   new_PlayerManager three_node_client (FClass DefaultPlayer)
   = Ok (mkPlayerManager three_node_client ∅ DefaultPlayer)).
Proof.
  split.
  - apply (proj1 (init_validates_player_class three_node_client) NamesakePlayer).
    reflexivity.
  - apply (proj2 (proj2 (init_validates_player_class three_node_client))
             DefaultPlayer).
    reflexivity.
Defined.

(** Against C7 as the spec words it: a class and a function whose products
    expose [cleanup], so that they meet the contract of section 6, are both
    turned down at construction. *)
Lemma init_rejects_factories_with_cleanup :
  (exposes_cleanup (FClass DuckPlayer) = true /\
   new_PlayerManager three_node_client (FClass DuckPlayer)
   = Raise (ValueError "Player must implement BasePlayer or DefaultPlayer.")) /\
  (exposes_cleanup make_player = true /\
   new_PlayerManager three_node_client make_player
   = Raise (TypeError "issubclass() arg 1 must be a class")).
Proof. repeat split. Qed.


(** * Further properties of the methods *)

(** ** The ways a call of create can go *)

Lemma create_found_live {NM : NodeManager} (w : World) (guild : Z)
    (rgn endpoint : option string) (r : node_ref) (n : Node) :
  players (self w) !! guild = None ->
  resolved_node rgn endpoint w = Some r ->
  heap w !! r = Some n ->
  create guild rgn endpoint None w
  = (Ok (VPlayer (new_player (default_player (self w)) guild r)),
     mkWorld
       (mkPlayerManager (_lavalink (self w))
          (<[guild := new_player (default_player (self w)) guild r]>
             (players (self w)))
          (default_player (self w)))
       (<[r := hosting n (new_player (default_player (self w)) guild r)]> (heap w))
       (trace w ++ resolution_events rgn endpoint w
          ++ [EvLogInfo (created_message n)])).
Proof.
  intros Hout Hsome Hlive.
  rewrite (create_resolution w guild rgn endpoint Hout), Hsome.
  rewrite bind_gets, bind_modify.
  erewrite bind_Ok by (apply deref_live; exact Hlive).
  unfold store, logger_info, emit. rewrite !bind_modify.
  unfold ret, log_line, set_players, hosting, created_message. simpl.
  rewrite <- app_assoc. reflexivity.
Qed.

Lemma create_found_dangling {NM : NodeManager} (w : World) (guild : Z)
    (rgn endpoint : option string) (r : node_ref) :
  players (self w) !! guild = None ->
  resolved_node rgn endpoint w = Some r ->
  heap w !! r = None ->
  create guild rgn endpoint None w
  = (Stuck,
     set_players
       (<[guild := new_player (default_player (self w)) guild r]> (players (self w)))
       (log_line (resolution_events rgn endpoint w) w)).
Proof.
  intros Hout Hsome Hdead.
  rewrite (create_resolution w guild rgn endpoint Hout), Hsome.
  rewrite bind_gets, bind_modify.
  unfold bind, deref. simpl.
  destruct (heap w !! r); [discriminate | reflexivity].
Qed.

Lemma create_runs {NM : NodeManager} (w : World) (guild : Z)
    (rgn endpoint : option string) (explicit : option node_ref) :
  create_run w guild rgn endpoint explicit
    (fst (create guild rgn endpoint explicit w))
    (snd (create guild rgn endpoint explicit w)).
Proof.
  destruct (players (self w) !! guild) as [player|] eqn:Hguild.
  - rewrite (create_registered w guild player rgn endpoint explicit Hguild).
    apply create_run_registered, Hguild.
  - destruct explicit as [n|].
    + rewrite (create_explicit_node_early_return w guild rgn endpoint n Hguild).
      apply create_run_explicit; [exact Hguild | reflexivity].
    + destruct (resolved_node rgn endpoint w) as [r|] eqn:Hfound.
      * destruct (heap w !! r) as [n|] eqn:Hr.
        -- rewrite (create_found_live w guild rgn endpoint r n Hguild Hfound Hr).
           apply create_run_created; auto.
        -- rewrite (create_found_dangling w guild rgn endpoint r Hguild Hfound Hr).
           apply create_run_dangling; auto.
      * rewrite (create_no_candidate w guild rgn endpoint Hguild Hfound).
        apply create_run_no_node; auto.
Qed.

Lemma cleanup_calls_app evs1 evs2 :
  cleanup_calls (evs1 ++ evs2) = cleanup_calls evs1 ++ cleanup_calls evs2.
Proof. apply omap_app. Qed.

Lemma cleanup_calls_resolution {NM : NodeManager} (rgn endpoint : option string)
    (w : World) :
  cleanup_calls (resolution_events rgn endpoint w) = [].
Proof. unfold resolution_events. destruct (truthy endpoint); reflexivity. Qed.

(** Split a goal about a call of [create] into the ways it can go. *)
Ltac create_cases w guild rgn endpoint explicit :=
  generalize (create_runs w guild rgn endpoint explicit);
  generalize (fst (create guild rgn endpoint explicit w))
             (snd (create guild rgn endpoint explicit w));
  intros ? ? [ player Hg | n Hg He | Hg He Hn | r Hg He Hr Hd | r n Hg He Hr Hl ].

(** ** create, when a node is found *)

(** X1: for a guild without player and no node argument, when the node
    manager answers a node, [create] returns a new player of the manager's
    player class bound to the guild and to that node, stores it under the
    guild, appends it to the node's [_original_players] (the node is
    otherwise unchanged, and so is every other node), and after the
    resolution calls logs one line naming the node. *)
Theorem create_makes_player {NM : NodeManager} (w : World) (guild : Z)
    (rgn endpoint : option string) (r : node_ref) (n : Node) :
  players (self w) !! guild = None ->
  resolved_node rgn endpoint w = Some r ->
  heap w !! r = Some n ->
  exists (p : Player) (w' : World),
    create guild rgn endpoint None w = (Ok (VPlayer p), w') /\
    player_class p = default_player (self w) /\
    guild_id p = guild /\
    node p = Some r /\
    players (self w') = <[guild := p]> (players (self w)) /\
    heap w' = <[r := hosting n p]> (heap w) /\
    trace w' = trace w ++ resolution_events rgn endpoint w
                 ++ [EvLogInfo (created_message n)].
Proof.
  intros Hout Hsome Hlive.
  exists (new_player (default_player (self w)) guild r). eexists.
  split; [apply (create_found_live w guild rgn endpoint r n Hout Hsome Hlive) |].
  repeat split.
Qed.

Lemma create_makes_player_witness :
  exists (p : Player) (w' : World),
    @create (spec_node_manager (fun _ => None)) 100 (Some "eu") None None empty_cluster
    = (Ok (VPlayer p), w') /\
    player_class p = default_player (self empty_cluster) /\
    guild_id p = 100 /\
    node p = Some 2%positive /\
    players (self w') = <[100 := p]> (players (self empty_cluster)) /\
    heap w' = <[2%positive := hosting NodeB p]> (heap empty_cluster) /\
    trace w'
    = trace empty_cluster
        ++ @resolution_events (spec_node_manager (fun _ => None)) (Some "eu") None
             empty_cluster
        ++ [EvLogInfo (created_message NodeB)].
Proof.
  apply (@create_makes_player (spec_node_manager (fun _ => None)) empty_cluster 100
           (Some "eu") None 2%positive NodeB); reflexivity.
Defined.

(** X2: whenever [create] returns a player, that player is the guild's
    entry from then on: [get] answers it, and any further [create] for the
    guild, whatever its arguments, returns it and changes nothing. *)
Theorem create_result_is_registered {NM : NodeManager} (w : World) (guild : Z)
    (rgn endpoint : option string) (explicit : option node_ref)
    (p : Player) (w' : World) :
  create guild rgn endpoint explicit w = (Ok (VPlayer p), w') ->
  get guild w' = (Ok (Some p), w') /\
  forall (rgn2 endpoint2 : option string) (explicit2 : option node_ref),
    create guild rgn2 endpoint2 explicit2 w' = (Ok (VPlayer p), w').
Proof.
  intros Hrun.
  assert (Hin : players (self w') !! guild = Some p).
  { pose proof (create_runs w guild rgn endpoint explicit) as R.
    rewrite Hrun in R. simpl in R.
    inversion R; subst; try assumption.
    apply lookup_insert_eq. }
  split.
  - unfold get, gets. rewrite Hin. reflexivity.
  - intros. apply create_registered, Hin.
Qed.

Lemma create_result_is_registered_witness :
  get 100 one_player = (Ok (Some player100), one_player) /\
  forall (rgn2 endpoint2 : option string) (explicit2 : option node_ref),
    @create (spec_node_manager (fun _ => None)) 100 rgn2 endpoint2 explicit2 one_player
    = (Ok (VPlayer player100), one_player).
Proof.
  apply (@create_result_is_registered (spec_node_manager (fun _ => None)) one_player
           100 (Some "us") None None player100 one_player).
  reflexivity.
Defined.

(** X3: [create] never drops or replaces an entry: a guild that had a
    player has the same player afterwards, however the call ends. *)
Theorem create_keeps_players {NM : NodeManager} (w : World) (guild : Z)
    (rgn endpoint : option string) (explicit : option node_ref)
    (g' : Z) (p' : Player) :
  players (self w) !! g' = Some p' ->
  players (self (snd (create guild rgn endpoint explicit w))) !! g' = Some p'.
Proof.
  intros Hin.
  assert (Hfresh : players (self w) !! guild = None -> guild <> g')
    by (intros Hout ->; congruence).
  create_cases w guild rgn endpoint explicit;
    try exact Hin; simpl; rewrite lookup_insert_ne by auto; exact Hin.
Qed.

Lemma create_keeps_players_witness :
  players
    (self (snd (@create (spec_node_manager (fun _ => None)) 5 (Some "eu") None None
                  one_player))) !! 100
  = Some player100.
Proof.
  apply (@create_keeps_players (spec_node_manager (fun _ => None)) one_player 5
           (Some "eu") None None 100 player100).
  reflexivity.
Defined.

(** X4: [create] sends no command to a node and calls no [cleanup],
    however it ends. *)
Theorem create_sends_nothing {NM : NodeManager} (w : World) (guild : Z)
    (rgn endpoint : option string) (explicit : option node_ref) :
  exists evs : list event,
    trace (snd (create guild rgn endpoint explicit w)) = trace w ++ evs /\
    remote_commands evs = [] /\
    cleanup_calls evs = [].
Proof.
  create_cases w guild rgn endpoint explicit.
  - exists []. rewrite app_nil_r. repeat split.
  - exists []. rewrite app_nil_r. repeat split.
  - exists (resolution_events rgn endpoint w). split; [reflexivity |].
    split; [apply remote_commands_resolution | apply cleanup_calls_resolution].
  - exists (resolution_events rgn endpoint w). split; [reflexivity |].
    split; [apply remote_commands_resolution | apply cleanup_calls_resolution].
  - exists (resolution_events rgn endpoint w ++ [EvLogInfo (created_message n)]).
    split; [reflexivity |].
    rewrite remote_commands_app, cleanup_calls_app,
      remote_commands_resolution, cleanup_calls_resolution.
    split; reflexivity.
Qed.

(** ** create and its endpoint argument *)

(** X5: a non-empty [endpoint] takes the place of the [region] argument:
    two calls that differ only in [region] run alike; and an empty
    [endpoint] counts as none. *)
Theorem create_endpoint_before_region {NM : NodeManager} (w : World) (guild : Z)
    (rgn1 rgn2 : option string) (explicit : option node_ref) :
  (forall e : string,
      e <> "" ->
      create guild rgn1 (Some e) explicit w = create guild rgn2 (Some e) explicit w) /\
  create guild rgn1 (Some "") explicit w = create guild rgn1 None explicit w.
Proof.
  split; [| reflexivity].
  intros e He. unfold create.
  assert (Htruthy : truthy (Some e) = true).
  { unfold truthy. destruct (String.eqb_spec e ""); [contradiction | reflexivity]. }
  rewrite Htruthy. reflexivity.
Qed.

Lemma create_endpoint_before_region_witness :
  @create (spec_node_manager (fun _ => Some "us")) 100 (Some "eu")
          (Some "us-west42.discord.gg") None empty_cluster
  = @create (spec_node_manager (fun _ => Some "us")) 100 None
            (Some "us-west42.discord.gg") None empty_cluster.
Proof.
  apply (proj1 (@create_endpoint_before_region (spec_node_manager (fun _ => Some "us"))
                  empty_cluster 100 (Some "eu") None None)).
  discriminate.
Defined.

(** ** What destroy and remove change *)

Lemma destroy_absent {OC : Outcomes} (w : World) (guild : Z) :
  players (self w) !! guild = None -> destroy guild w = (Ok tt, w).
Proof. intros Hout. unfold destroy. rewrite bind_gets, Hout. reflexivity. Qed.

Lemma remove_absent {OC : Outcomes} (w : World) (guild : Z) :
  players (self w) !! guild = None -> remove guild w = (Ok tt, w).
Proof. intros Hout. unfold remove. rewrite bind_gets, Hout. reflexivity. Qed.

Lemma destroy_dangling_node {OC : Outcomes} (w : World) (guild : Z)
    (player : Player) (r : node_ref) :
  players (self w) !! guild = Some player ->
  node player = Some r ->
  heap w !! r = None ->
  destroy guild w = (Stuck, evicted guild w).
Proof.
  intros Hin Hnode Hdead. unfold destroy.
  rewrite bind_gets, Hin, bind_modify, Hnode.
  unfold bind, deref. simpl.
  destruct (heap w !! r); [discriminate | reflexivity].
Qed.

(** In every case the world after [destroy] is the one before with the
    guild's entry deleted and some calls added, none of them a [cleanup]. *)
Lemma destroy_effect {OC : Outcomes} (w : World) (guild : Z) :
  exists evs : list event,
    players (self (snd (destroy guild w))) = delete guild (players (self w)) /\
    _lavalink (self (snd (destroy guild w))) = _lavalink (self w) /\
    default_player (self (snd (destroy guild w))) = default_player (self w) /\
    heap (snd (destroy guild w)) = heap w /\
    trace (snd (destroy guild w)) = trace w ++ evs /\
    cleanup_calls evs = [] /\
    selection_calls evs = [].
Proof.
  destruct (players (self w) !! guild) as [player|] eqn:Hguild.
  - destruct (node player) as [r|] eqn:Hnode.
    + destruct (heap w !! r) as [n|] eqn:Hr.
      * destruct (available n) eqn:Hav.
        -- rewrite (destroy_available_node w guild player r n Hguild Hnode Hr Hav).
           destruct (_send r _); eexists; repeat split.
        -- rewrite (destroy_unavailable_node w guild player r n Hguild Hnode Hr Hav).
           eexists; repeat split.
      * rewrite (destroy_dangling_node w guild player r Hguild Hnode Hr).
        exists []. simpl. rewrite app_nil_r. repeat split.
    + rewrite (destroy_without_node w guild player Hguild Hnode).
      exists []. simpl. rewrite app_nil_r. repeat split.
  - rewrite (destroy_absent w guild Hguild). exists []. simpl.
    rewrite app_nil_r, (delete_id _ _ Hguild). repeat split.
Qed.

Lemma remove_effect {OC : Outcomes} (w : World) (guild : Z) :
  exists evs : list event,
    players (self (snd (remove guild w))) = delete guild (players (self w)) /\
    _lavalink (self (snd (remove guild w))) = _lavalink (self w) /\
    default_player (self (snd (remove guild w))) = default_player (self w) /\
    heap (snd (remove guild w)) = heap w /\
    trace (snd (remove guild w)) = trace w ++ evs /\
    remote_commands evs = [] /\
    selection_calls evs = [].
Proof.
  destruct (players (self w) !! guild) as [player|] eqn:Hguild.
  - rewrite (remove_registered w guild player Hguild), player_cleanup_run.
    eexists; repeat split.
  - rewrite (remove_absent w guild Hguild). exists []. simpl.
    rewrite app_nil_r, (delete_id _ _ Hguild). repeat split.
Qed.

(** X6: however [destroy] ends, it leaves every node object as it was (the
    player it pops stays in its node's [_original_players]), leaves the
    entries of all other guilds alone, and calls no [cleanup]. *)
Theorem destroy_touches_one_entry {OC : Outcomes} (w : World) (guild : Z) :
  heap (snd (destroy guild w)) = heap w /\
  (forall g' : Z, g' <> guild ->
     players (self (snd (destroy guild w))) !! g' = players (self w) !! g') /\
  exists evs : list event,
    trace (snd (destroy guild w)) = trace w ++ evs /\ cleanup_calls evs = [].
Proof.
  destruct (destroy_effect w guild) as (evs & Hp & _ & _ & Hh & Ht & Hc & _).
  split; [exact Hh |]. split.
  - intros g' Hne. rewrite Hp. apply lookup_delete_ne. auto.
  - exists evs. split; assumption.
Qed.

(** X7: however [remove] ends, it leaves every node object as it was and
    leaves the entries of all other guilds alone. *)
Theorem remove_touches_one_entry {OC : Outcomes} (w : World) (guild : Z) :
  heap (snd (remove guild w)) = heap w /\
  (forall g' : Z, g' <> guild ->
     players (self (snd (remove guild w))) !! g' = players (self w) !! g').
Proof.
  destruct (remove_effect w guild) as (evs & Hp & _ & _ & Hh & _).
  split; [exact Hh |].
  intros g' Hne. rewrite Hp. apply lookup_delete_ne. auto.
Qed.

(** X8: once [destroy] or [remove] has run for a guild, however it ended, a
    further [destroy] or [remove] for that guild returns at once: the world
    stays as it is, so nothing is sent and no [cleanup] is called again. *)
Theorem destroy_remove_once {OC : Outcomes} (w : World) (guild : Z) :
  destroy guild (snd (destroy guild w)) = (Ok tt, snd (destroy guild w)) /\
  remove guild (snd (destroy guild w)) = (Ok tt, snd (destroy guild w)) /\
  destroy guild (snd (remove guild w)) = (Ok tt, snd (remove guild w)) /\
  remove guild (snd (remove guild w)) = (Ok tt, snd (remove guild w)).
Proof.
  destruct (destroy_effect w guild) as (_ & Hd & _).
  destruct (remove_effect w guild) as (_ & Hr & _).
  assert (Hd' : players (self (snd (destroy guild w))) !! guild = None)
    by (rewrite Hd; apply lookup_delete_eq).
  assert (Hr' : players (self (snd (remove guild w))) !! guild = None)
    by (rewrite Hr; apply lookup_delete_eq).
  repeat split;
    first [ apply destroy_absent; assumption | apply remove_absent; assumption ].
Qed.

(** X9: [remove] and [destroy] leave the same dictionary behind. *)
Theorem remove_destroy_same_players {OC : Outcomes} (w : World) (guild : Z) :
  players (self (snd (remove guild w))) = players (self (snd (destroy guild w))).
Proof.
  destruct (destroy_effect w guild) as (_ & Hd & _).
  destruct (remove_effect w guild) as (_ & Hr & _).
  rewrite Hd, Hr. reflexivity.
Qed.

(** X10: when the node is available and [_send] raises, [destroy] raises
    the same exception; the entry is already gone, the command is the only
    call made, and no line is logged. *)
Theorem destroy_send_raises {OC : Outcomes} (w : World) (guild : Z)
    (player : Player) (r : node_ref) (n : Node) (e : exn) :
  players (self w) !! guild = Some player ->
  node player = Some r ->
  heap w !! r = Some n ->
  available n = true ->
  _send r (mkCommand "destroy" (guild_id player)) = Some e ->
  exists w' : World,
    destroy guild w = (Raise e, w') /\
    players (self w') = delete guild (players (self w)) /\
    trace w' = trace w ++ [EvSend r (mkCommand "destroy" (guild_id player))].
Proof.
  intros Hin Hnode Hlive Hup Hsend.
  rewrite (destroy_available_node w guild player r n Hin Hnode Hlive Hup), Hsend.
  eexists. repeat split.
Qed.

Lemma destroy_send_raises_witness :
  exists w' : World,
    @destroy send_raises 100 one_player = (Raise (Foreign "connection lost"), w') /\
    players (self w') = delete 100 (players (self one_player)) /\
    trace w'
    = trace one_player ++ [EvSend 2%positive (mkCommand "destroy" (guild_id player100))].
Proof.
  apply (@destroy_send_raises send_raises one_player 100 player100 2%positive NodeB
           (Foreign "connection lost")); reflexivity.
Defined.

(** ** create, then destroy *)

(** X11: after a [create] that made a player, [destroy] for the same guild
    gives the dictionary of before the [create] back, but not the node:
    the node keeps the player in its [_original_players]. *)
Theorem create_then_destroy {NM : NodeManager} {OC : Outcomes} (w : World)
    (guild : Z) (rgn endpoint : option string) (r : node_ref) (n : Node) :
  players (self w) !! guild = None ->
  resolved_node rgn endpoint w = Some r ->
  heap w !! r = Some n ->
  exists p : Player,
    fst (create guild rgn endpoint None w) = Ok (VPlayer p) /\
    players (self (snd (destroy guild (snd (create guild rgn endpoint None w)))))
    = players (self w) /\
    heap (snd (destroy guild (snd (create guild rgn endpoint None w)))) !! r
    = Some (hosting n p) /\
    In p (_original_players (hosting n p)).
Proof.
  intros Hout Hsome Hlive.
  exists (new_player (default_player (self w)) guild r).
  destruct (destroy_effect (snd (create guild rgn endpoint None w)) guild)
    as (_ & Hp & _ & _ & Hh & _).
  rewrite Hp, Hh.
  rewrite (create_found_live w guild rgn endpoint r n Hout Hsome Hlive). simpl.
  split; [reflexivity |]. split; [apply delete_insert_id, Hout |].
  split; [apply lookup_insert_eq |].
  apply in_or_app. right. left. reflexivity.
Qed.

Lemma create_then_destroy_witness :
  exists p : Player,
    fst (@create (spec_node_manager (fun _ => None)) 100 (Some "eu") None None
           empty_cluster) = Ok (VPlayer p) /\
    players
      (self (snd (@destroy all_return 100
                    (snd (@create (spec_node_manager (fun _ => None)) 100
                            (Some "eu") None None empty_cluster)))))
    = players (self empty_cluster) /\
    heap (snd (@destroy all_return 100
                 (snd (@create (spec_node_manager (fun _ => None)) 100
                         (Some "eu") None None empty_cluster)))) !! 2%positive
    = Some (hosting NodeB p) /\
    In p (_original_players (hosting NodeB p)).
Proof.
  apply (@create_then_destroy (spec_node_manager (fun _ => None)) all_return
           empty_cluster 100 (Some "eu") None 2%positive NodeB); reflexivity.
Defined.

(** * The dictionary in its order *)

(** ** The dictionary operations *)

Lemma dict_view_get (k : Z) (d : list (Z * Player)) :
  dict_view d !! k = dict_get k d.
Proof.
  unfold dict_view. induction d as [| [k' v] d IH]; simpl.
  - apply lookup_empty.
  - destruct (Z.eqb_spec k' k) as [-> | Hne].
    + apply lookup_insert_eq.
    + rewrite lookup_insert_ne by exact Hne. exact IH.
Qed.

Lemma dict_view_setitem (k : Z) (v : Player) (d : list (Z * Player)) :
  dict_view (dict_setitem k v d) = <[k := v]> (dict_view d).
Proof.
  unfold dict_view. induction d as [| [k' v'] d IH]; simpl.
  - reflexivity.
  - destruct (Z.eqb_spec k' k) as [-> | Hne]; simpl.
    + symmetry. apply insert_insert_eq.
    + rewrite IH. apply insert_insert_ne. exact Hne.
Qed.

Lemma dict_view_pop (k : Z) (d : list (Z * Player)) :
  dict_view (dict_pop k d) = delete k (dict_view d).
Proof.
  unfold dict_view. induction d as [| [k' v'] d IH]; simpl.
  - symmetry. apply delete_empty.
  - destruct (Z.eqb_spec k' k) as [-> | Hne]; simpl.
    + rewrite IH. symmetry. apply delete_insert_eq.
    + rewrite IH. symmetry. apply delete_insert_ne. auto.
Qed.

Lemma dict_setitem_new (k : Z) (v : Player) (d : list (Z * Player)) :
  dict_get k d = None -> dict_setitem k v d = d ++ [(k, v)].
Proof.
  induction d as [| [k' v'] d IH]; simpl; intros Hnone.
  - reflexivity.
  - destruct (Z.eqb k' k); [discriminate |]. rewrite (IH Hnone). reflexivity.
Qed.

Lemma dict_pop_absent (k : Z) (d : list (Z * Player)) :
  dict_get k d = None -> dict_pop k d = d.
Proof.
  induction d as [| [k' v'] d IH]; simpl; intros Hnone.
  - reflexivity.
  - destruct (Z.eqb k' k); [discriminate |]. rewrite (IH Hnone). reflexivity.
Qed.

Lemma dict_pop_filter (k : Z) (d : list (Z * Player)) :
  dict_pop k d = List.filter (fun e => negb (Z.eqb (fst e) k)) d.
Proof.
  induction d as [| [k' v'] d IH]; simpl.
  - reflexivity.
  - destruct (Z.eqb k' k); simpl; rewrite IH; reflexivity.
Qed.

Lemma dict_get_In (k : Z) (v : Player) (d : list (Z * Player)) :
  dict_get k d = Some v -> In (k, v) d.
Proof.
  induction d as [| [k' v'] d IH]; simpl; intros Hget.
  - discriminate.
  - destruct (Z.eqb_spec k' k) as [-> | Hne].
    + injection Hget as ->. left. reflexivity.
    + right. apply IH, Hget.
Qed.

Lemma dict_get_key_In (k : Z) (d : list (Z * Player)) :
  In k (fst <$> d) -> dict_get k d <> None.
Proof.
  induction d as [| [k' v'] d IH]; simpl.
  - intros [].
  - intros [-> | Hin].
    + rewrite Z.eqb_refl. discriminate.
    + destruct (Z.eqb k' k); [discriminate | apply IH, Hin].
Qed.

Lemma dict_In_get (k : Z) (v : Player) (d : list (Z * Player)) :
  dict_wf d -> In (k, v) d -> dict_get k d = Some v.
Proof.
  unfold dict_wf. induction d as [| [k' v'] d IH]; simpl; intros Hwf Hin.
  - destruct Hin.
  - apply NoDup_cons in Hwf as [Hfresh Hwf].
    destruct Hin as [[= -> ->] | Hin].
    + rewrite Z.eqb_refl. reflexivity.
    + destruct (Z.eqb_spec k' k) as [-> | Hne]; [| apply IH; assumption].
      exfalso. apply Hfresh. apply list_elem_of_In.
      change k with (fst (k, v)). apply in_map, Hin.
Qed.

Lemma dict_setitem_keys (k : Z) (v : Player) (d : list (Z * Player)) (x : Z) :
  In x (fst <$> dict_setitem k v d) -> x = k \/ In x (fst <$> d).
Proof.
  induction d as [| [k' v'] d IH]; simpl.
  - intros [<- | []]. left. reflexivity.
  - destruct (Z.eqb_spec k' k) as [-> | Hne]; simpl.
    + intros [<- | Hin]; [left; reflexivity | right; right; exact Hin].
    + intros [<- | Hin]; [right; left; reflexivity |].
      destruct (IH Hin) as [-> | Hin']; [left; reflexivity | right; right; exact Hin'].
Qed.

Lemma dict_pop_keys (k : Z) (d : list (Z * Player)) (x : Z) :
  In x (fst <$> dict_pop k d) -> In x (fst <$> d) /\ x <> k.
Proof.
  induction d as [| [k' v'] d IH]; simpl.
  - intros [].
  - destruct (Z.eqb_spec k' k) as [-> | Hne]; simpl.
    + intros Hin. destruct (IH Hin). split; [right |]; assumption.
    + intros [<- | Hin]; [split; [left; reflexivity | exact Hne] |].
      destruct (IH Hin). split; [right |]; assumption.
Qed.

Lemma dict_wf_setitem (k : Z) (v : Player) (d : list (Z * Player)) :
  dict_wf d -> dict_wf (dict_setitem k v d).
Proof.
  unfold dict_wf. induction d as [| [k' v'] d IH]; simpl; intros Hwf.
  - apply NoDup_singleton.
  - apply NoDup_cons in Hwf as [Hfresh Hwf].
    destruct (Z.eqb_spec k' k) as [-> | Hne]; simpl.
    + apply NoDup_cons. split; assumption.
    + apply NoDup_cons. split; [| apply IH, Hwf].
      intros Hin. apply list_elem_of_In, dict_setitem_keys in Hin as [-> | Hin].
      * apply Hne. reflexivity.
      * apply Hfresh, list_elem_of_In, Hin.
Qed.

Lemma dict_wf_pop (k : Z) (d : list (Z * Player)) :
  dict_wf d -> dict_wf (dict_pop k d).
Proof.
  unfold dict_wf. induction d as [| [k' v'] d IH]; simpl; intros Hwf.
  - apply NoDup_nil_2.
  - apply NoDup_cons in Hwf as [Hfresh Hwf].
    destruct (Z.eqb k' k); simpl; [apply IH, Hwf |].
    apply NoDup_cons. split; [| apply IH, Hwf].
    intros Hin. apply list_elem_of_In, dict_pop_keys in Hin as [Hin _].
    apply Hfresh, list_elem_of_In, Hin.
Qed.

Lemma dict_pop_length (k : Z) (v : Player) (d : list (Z * Player)) :
  dict_wf d -> dict_get k d = Some v -> S (length (dict_pop k d)) = length d.
Proof.
  unfold dict_wf. induction d as [| [k' v'] d IH]; simpl; intros Hwf Hget.
  - discriminate.
  - apply NoDup_cons in Hwf as [Hfresh Hwf].
    destruct (Z.eqb_spec k' k) as [-> | Hne]; simpl.
    + rewrite dict_pop_absent; [reflexivity |].
      destruct (dict_get k d) eqn:E; [| reflexivity].
      exfalso. apply Hfresh, list_elem_of_In.
      change k with (fst (k, p)). apply in_map, (dict_get_In _ _ _ E).
    + rewrite (IH Hwf Hget). reflexivity.
Qed.

(** ** Steps that leave the manager or the dictionary alone *)

Lemma keeps_self_ret {A} (a : A) : keeps_self (ret a).
Proof. intros w. reflexivity. Qed.

Lemma keeps_self_raise {A} (e : exn) : keeps_self (@raise World A e).
Proof. intros w. reflexivity. Qed.

Lemma keeps_self_gets {A} (f : World -> A) : keeps_self (gets f).
Proof. intros w. reflexivity. Qed.

Lemma keeps_self_bind {A B} (m : M World A) (k : A -> M World B) :
  keeps_self m -> (forall a, keeps_self (k a)) -> keeps_self (bind m k).
Proof.
  intros Hm Hk w. unfold bind. specialize (Hm w).
  destruct (m w) as [[a | e |] w1]; simpl in *; try exact Hm.
  rewrite (Hk a w1). exact Hm.
Qed.

Lemma keeps_self_emit (e : event) : keeps_self (emit e).
Proof. intros w. reflexivity. Qed.

Lemma keeps_self_deref (r : node_ref) : keeps_self (deref r).
Proof. intros w. unfold deref. destruct (heap w !! r); reflexivity. Qed.

Lemma keeps_self_store (r : node_ref) (n : Node) : keeps_self (store r n).
Proof. intros w. reflexivity. Qed.

Lemma keeps_self_finish (o : option exn) : keeps_self (finish o).
Proof. intros w. destruct o; reflexivity. Qed.

Lemma keeps_self_node_send {OC : Outcomes} (r : node_ref) (c : Command) :
  keeps_self (node_send r c).
Proof.
  apply keeps_self_bind; [apply keeps_self_emit | intros; apply keeps_self_finish].
Qed.

Lemma keeps_self_player_cleanup {OC : Outcomes} (p : Player) :
  keeps_self (player_cleanup p).
Proof.
  apply keeps_self_bind; [apply keeps_self_emit | intros; apply keeps_self_finish].
Qed.

Lemma keeps_self_node_name (o : option node_ref) : keeps_self (node_name o).
Proof.
  destruct o; [| apply keeps_self_raise].
  apply keeps_self_bind; [apply keeps_self_deref | intros; apply keeps_self_ret].
Qed.

Lemma keeps_self_call_get_region {NM : NodeManager} (endpoint : string) :
  keeps_self (call_get_region endpoint).
Proof. intros w. reflexivity. Qed.

Lemma keeps_self_call_find_ideal_node {NM : NodeManager} (rgn : option string) :
  keeps_self (call_find_ideal_node rgn).
Proof. intros w. reflexivity. Qed.

Lemma keeps_dict_ret {A} (a : A) : keeps_dict (ret a).
Proof. intros ow. reflexivity. Qed.

Lemma keeps_dict_raise {A} (e : exn) : keeps_dict (@raise OWorld A e).
Proof. intros ow. reflexivity. Qed.

Lemma keeps_dict_lift {A} (m : M World A) : keeps_dict (lift m).
Proof. intros ow. unfold lift. destruct (m (view ow)). reflexivity. Qed.

Lemma keeps_dict_bind {A B} (m : M OWorld A) (k : A -> M OWorld B) :
  keeps_dict m -> (forall a, keeps_dict (k a)) -> keeps_dict (bind m k).
Proof.
  intros Hm Hk ow. unfold bind. specialize (Hm ow).
  destruct (m ow) as [[a | e |] ow1]; simpl in *; try exact Hm.
  rewrite (Hk a ow1). exact Hm.
Qed.

(** ** Forgetting the order commutes with the methods *)

Lemma simulates_ret {A} (a : A) : simulates (ret a) (ret a).
Proof. intros ow. reflexivity. Qed.

Lemma simulates_raise {A} (e : exn) : simulates (@raise OWorld A e) (raise e).
Proof. intros ow. reflexivity. Qed.

Lemma simulates_bind {A B} (mo : M OWorld A) (m : M World A)
    (ko : A -> M OWorld B) (k : A -> M World B) :
  simulates mo m -> (forall a, simulates (ko a) (k a)) ->
  simulates (bind mo ko) (bind m k).
Proof.
  intros Hm Hk ow. unfold bind. rewrite (Hm ow).
  destruct (mo ow) as [[a | e |] ow1]; simpl; [apply Hk | reflexivity | reflexivity].
Qed.

Lemma simulates_lift {A} (m : M World A) : keeps_self m -> simulates (lift m) m.
Proof.
  intros Hm ow. specialize (Hm (view ow)). unfold lift.
  destruct (m (view ow)) as [res [s h t]]. simpl in *. subst s. reflexivity.
Qed.

Lemma simulates_destroy {OC : Outcomes} (guild : Z) :
  simulates (Ordered.destroy guild) (destroy guild).
Proof.
  intros ow. unfold Ordered.destroy, destroy. rewrite !bind_gets.
  change (players (self (view ow))) with (dict_view (o_players ow)).
  rewrite dict_view_get.
  destruct (dict_get guild (o_players ow)) as [player|]; [| reflexivity].
  rewrite !bind_modify.
  change (set_players (delete guild (dict_view (o_players ow))) (view ow))
    with (mkWorld (mkPlayerManager (o_lavalink ow)
                     (delete guild (dict_view (o_players ow)))
                     (o_default_player ow)) (o_heap ow) (o_trace ow)).
  rewrite <- dict_view_pop.
  change (mkWorld _ _ _) with (view (set_dict (dict_pop guild (o_players ow)) ow)).
  apply simulates_bind; [| intros _; apply simulates_bind].
  - apply simulates_lift. destruct (node player) as [r|]; [| apply keeps_self_ret].
    apply keeps_self_bind; [apply keeps_self_deref |].
    intros nd. destruct (available nd);
      [apply keeps_self_node_send | apply keeps_self_ret].
  - apply simulates_lift, keeps_self_node_name.
  - intros nm. apply simulates_lift, keeps_self_emit.
Qed.

Lemma simulates_remove {OC : Outcomes} (guild : Z) :
  simulates (Ordered.remove guild) (remove guild).
Proof.
  intros ow. unfold Ordered.remove, remove. rewrite !bind_gets.
  change (players (self (view ow))) with (dict_view (o_players ow)).
  rewrite dict_view_get.
  destruct (dict_get guild (o_players ow)) as [player|]; [| reflexivity].
  rewrite !bind_modify.
  change (set_players (delete guild (dict_view (o_players ow))) (view ow))
    with (mkWorld (mkPlayerManager (o_lavalink ow)
                     (delete guild (dict_view (o_players ow)))
                     (o_default_player ow)) (o_heap ow) (o_trace ow)).
  rewrite <- dict_view_pop.
  change (mkWorld _ _ _) with (view (set_dict (dict_pop guild (o_players ow)) ow)).
  apply simulates_lift, keeps_self_player_cleanup.
Qed.

Lemma simulates_get (guild : Z) : simulates (Ordered.get guild) (get guild).
Proof.
  intros ow. unfold Ordered.get, get, gets. simpl.
  rewrite dict_view_get. reflexivity.
Qed.

Lemma simulates_create {NM : NodeManager} (guild : Z)
    (rgn endpoint : option string) (explicit : option node_ref) :
  simulates (Ordered.create guild rgn endpoint explicit)
            (create guild rgn endpoint explicit).
Proof.
  intros ow. unfold Ordered.create, create. rewrite !bind_gets.
  change (players (self (view ow))) with (dict_view (o_players ow)).
  rewrite dict_view_get.
  destruct (dict_get guild (o_players ow)) as [player|]; [reflexivity |].
  destruct explicit as [given|]; [reflexivity |].
  revert ow. apply simulates_bind.
  { destruct (truthy endpoint);
      [apply simulates_lift, keeps_self_call_get_region | apply simulates_ret]. }
  intros rgn'. apply simulates_bind;
    [apply simulates_lift, keeps_self_call_find_ideal_node |].
  intros [r|]; [| apply simulates_raise].
  intros ow. rewrite !bind_gets, !bind_modify.
  change (default_player (self (view ow))) with (o_default_player ow).
  set (player := new_player (o_default_player ow) guild r).
  change (set_players _ (view ow))
    with (mkWorld (mkPlayerManager (o_lavalink ow)
                     (<[guild := player]> (dict_view (o_players ow)))
                     (o_default_player ow)) (o_heap ow) (o_trace ow)).
  rewrite <- dict_view_setitem.
  change (mkWorld _ _ _)
    with (view (set_dict (dict_setitem guild player (o_players ow)) ow)).
  generalize (set_dict (dict_setitem guild player (o_players ow)) ow).
  apply simulates_bind; [apply simulates_lift, keeps_self_deref |].
  intros n. apply simulates_bind; [apply simulates_lift, keeps_self_store |].
  intros _. apply simulates_bind; [apply simulates_lift, keeps_self_emit |].
  intros _. apply simulates_ret.
Qed.

(** ** What the methods do to the order *)

Lemma ordered_destroy_dict {OC : Outcomes} (guild : Z) (ow : OWorld) :
  o_players (snd (Ordered.destroy guild ow)) = dict_pop guild (o_players ow).
Proof.
  unfold Ordered.destroy. rewrite bind_gets.
  destruct (dict_get guild (o_players ow)) as [player|] eqn:Hget.
  - rewrite bind_modify.
    match goal with
    | |- o_players (snd (?m ?x)) = _ => assert (Hk : keeps_dict m)
    end.
    { apply keeps_dict_bind; [apply keeps_dict_lift |].
      intros _. apply keeps_dict_bind; [apply keeps_dict_lift |].
      intros nm. apply keeps_dict_lift. }
    rewrite Hk. reflexivity.
  - simpl. symmetry. apply dict_pop_absent, Hget.
Qed.

Lemma ordered_remove_dict {OC : Outcomes} (guild : Z) (ow : OWorld) :
  o_players (snd (Ordered.remove guild ow)) = dict_pop guild (o_players ow).
Proof.
  unfold Ordered.remove. rewrite bind_gets.
  destruct (dict_get guild (o_players ow)) as [player|] eqn:Hget.
  - rewrite bind_modify, keeps_dict_lift. reflexivity.
  - simpl. symmetry. apply dict_pop_absent, Hget.
Qed.

Lemma ordered_create_resolution {NM : NodeManager} (ow : OWorld) (guild : Z)
    (rgn endpoint : option string) :
  dict_get guild (o_players ow) = None ->
  Ordered.create guild rgn endpoint None ow
  = match resolved_node rgn endpoint (view ow) with
    | None => raise (NodeException "No available nodes!")
    | Some r =>
        cls <- gets o_default_player ;;
        let player := new_player cls guild r in
        modify (fun ow => set_dict (dict_setitem guild player (o_players ow)) ow) ;;
        n <- lift (deref r) ;;
        lift (store r (mkNode (name n) (region n) (available n) (penalty n)
                              (_original_players n ++ [player]))) ;;
        lift (logger_info ("[NODE-" ++ name n ++ "] Successfully created a player")) ;;
        ret (VPlayer player)
    end (o_log (resolution_events rgn endpoint (view ow)) ow).
Proof.
  intros Hout. unfold Ordered.create. rewrite bind_gets, Hout.
  unfold resolution_events, resolved_node, resolved_region.
  destruct (truthy endpoint); [| reflexivity].
  unfold o_log. rewrite (app_assoc (o_trace ow)). reflexivity.
Qed.

(** The dictionary [create] leaves: with one more entry, for the guild,
    exactly when the guild had none, no node was given and one was found. *)
Lemma ordered_create_dict {NM : NodeManager} (ow : OWorld) (guild : Z)
    (rgn endpoint : option string) (explicit : option node_ref) :
  o_players (snd (Ordered.create guild rgn endpoint explicit ow))
  = match dict_get guild (o_players ow), explicit,
          resolved_node rgn endpoint (view ow) with
    | None, None, Some r =>
        dict_setitem guild (new_player (o_default_player ow) guild r) (o_players ow)
    | _, _, _ => o_players ow
    end.
Proof.
  destruct (dict_get guild (o_players ow)) as [player|] eqn:Hget.
  - unfold Ordered.create. rewrite bind_gets, Hget. reflexivity.
  - destruct explicit as [given|].
    + unfold Ordered.create. rewrite bind_gets, Hget. reflexivity.
    + rewrite (ordered_create_resolution ow guild rgn endpoint Hget).
      destruct (resolved_node rgn endpoint (view ow)) as [r|]; [| reflexivity].
      rewrite bind_gets, bind_modify.
      match goal with
      | |- o_players (snd (?m ?x)) = _ => assert (Hk : keeps_dict m)
      end.
      { apply keeps_dict_bind; [apply keeps_dict_lift |].
        intros n. apply keeps_dict_bind; [apply keeps_dict_lift |].
        intros _. apply keeps_dict_bind; [apply keeps_dict_lift |].
        intros _. apply keeps_dict_ret. }
      rewrite Hk. reflexivity.
Qed.

(** X12: when [create] makes a player for a guild that had none, the new
    entry comes last: [__iter__], [values] and [find_all] without predicate
    yield what they yielded before, in the same order, and then the new
    player; [__len__] grows by one. *)
Theorem created_player_comes_last {NM : NodeManager} (ow : OWorld) (guild : Z)
    (rgn endpoint : option string) (p : Player) :
  dict_get guild (o_players ow) = None ->
  fst (Ordered.create guild rgn endpoint None ow) = Ok (VPlayer p) ->
  __iter__ (snd (Ordered.create guild rgn endpoint None ow))
  = __iter__ ow ++ [(guild, p)] /\
  values (snd (Ordered.create guild rgn endpoint None ow)) = values ow ++ [p] /\
  find_all None (snd (Ordered.create guild rgn endpoint None ow))
  = find_all None ow ++ [p] /\
  __len__ (snd (Ordered.create guild rgn endpoint None ow)) = S (__len__ ow).
Proof.
  intros Hout Hres.
  assert (Hdict : o_players (snd (Ordered.create guild rgn endpoint None ow))
                  = o_players ow ++ [(guild, p)]).
  { rewrite ordered_create_dict, Hout.
    pose proof (simulates_create guild rgn endpoint None ow) as Hsim.
    rewrite Hres in Hsim.
    assert (Hview : players (self (view ow)) !! guild = None)
      by (simpl; rewrite dict_view_get; exact Hout).
    destruct (resolved_node rgn endpoint (view ow)) as [r|] eqn:Hfound.
    - destruct (heap (view ow) !! r) as [n|] eqn:Hr.
      + rewrite (create_found_live (view ow) guild rgn endpoint r n Hview Hfound Hr)
          in Hsim.
        injection Hsim as Hp _. simpl in Hp. rewrite Hp.
        apply dict_setitem_new, Hout.
      + rewrite (create_found_dangling (view ow) guild rgn endpoint r Hview Hfound Hr)
          in Hsim.
        discriminate.
    - rewrite (create_no_candidate (view ow) guild rgn endpoint Hview Hfound) in Hsim.
      discriminate. }
  unfold find_all, values, __iter__, __len__. rewrite Hdict.
  rewrite fmap_app, length_app. simpl.
  repeat split. lia.
Qed.

Lemma created_player_comes_last_witness :
  __iter__ (snd (@Ordered.create (spec_node_manager (fun _ => None)) 300 (Some "us")
                   None None two_players))
  = __iter__ two_players ++ [(300, new_player DefaultPlayer 300 3%positive)] /\
  values (snd (@Ordered.create (spec_node_manager (fun _ => None)) 300 (Some "us")
                 None None two_players))
  = values two_players ++ [new_player DefaultPlayer 300 3%positive] /\
  find_all None (snd (@Ordered.create (spec_node_manager (fun _ => None)) 300
                        (Some "us") None None two_players))
  = find_all None two_players ++ [new_player DefaultPlayer 300 3%positive] /\
  __len__ (snd (@Ordered.create (spec_node_manager (fun _ => None)) 300 (Some "us")
                  None None two_players))
  = S (__len__ two_players).
Proof.
  apply (@created_player_comes_last (spec_node_manager (fun _ => None)) two_players
           300 (Some "us") None (new_player DefaultPlayer 300 3%positive));
    reflexivity.
Defined.

(** X13: however [destroy] ends, [__iter__] afterwards yields the entries
    of the other guilds, in the order they had; [__len__] is one less when
    the guild had a player and the same when it had none. *)
Theorem destroy_keeps_order {OC : Outcomes} (ow : OWorld) (guild : Z) :
  __iter__ (snd (Ordered.destroy guild ow))
  = List.filter (fun e => negb (Z.eqb (fst e) guild)) (__iter__ ow) /\
  (dict_get guild (o_players ow) = None ->
     __len__ (snd (Ordered.destroy guild ow)) = __len__ ow) /\
  (dict_wf (o_players ow) -> dict_get guild (o_players ow) <> None ->
     S (__len__ (snd (Ordered.destroy guild ow))) = __len__ ow).
Proof.
  unfold __iter__, __len__. rewrite ordered_destroy_dict.
  split; [apply dict_pop_filter |]. split.
  - intros Hnone. rewrite (dict_pop_absent _ _ Hnone). reflexivity.
  - intros Hwf Hsome.
    destruct (dict_get guild (o_players ow)) as [p|] eqn:Hget; [| contradiction].
    apply (dict_pop_length guild p); assumption.
Qed.

(** X14: the same for [remove]. *)
Theorem remove_keeps_order {OC : Outcomes} (ow : OWorld) (guild : Z) :
  __iter__ (snd (Ordered.remove guild ow))
  = List.filter (fun e => negb (Z.eqb (fst e) guild)) (__iter__ ow) /\
  (dict_get guild (o_players ow) = None ->
     __len__ (snd (Ordered.remove guild ow)) = __len__ ow) /\
  (dict_wf (o_players ow) -> dict_get guild (o_players ow) <> None ->
     S (__len__ (snd (Ordered.remove guild ow))) = __len__ ow).
Proof.
  unfold __iter__, __len__. rewrite ordered_remove_dict.
  split; [apply dict_pop_filter |]. split.
  - intros Hnone. rewrite (dict_pop_absent _ _ Hnone). reflexivity.
  - intros Hwf Hsome.
    destruct (dict_get guild (o_players ow)) as [p|] eqn:Hget; [| contradiction].
    apply (dict_pop_length guild p); assumption.
Qed.

Lemma two_players_wf : dict_wf (o_players two_players).
Proof.
  unfold dict_wf. simpl. apply NoDup_cons. split; [| apply NoDup_singleton].
  intros Hin. apply list_elem_of_singleton in Hin. discriminate.
Qed.

Lemma destroy_keeps_order_witness :
  __iter__ (snd (@Ordered.destroy all_return 100 two_players))
  = List.filter (fun e => negb (Z.eqb (fst e) 100)) (__iter__ two_players) /\
  __len__ (snd (@Ordered.destroy all_return 300 two_players)) = __len__ two_players /\
  S (__len__ (snd (@Ordered.destroy all_return 100 two_players)))
  = __len__ two_players.
Proof.
  split; [| split].
  - apply (proj1 (@destroy_keeps_order all_return two_players 100)).
  - apply (proj1 (proj2 (@destroy_keeps_order all_return two_players 300))).
    reflexivity.
  - apply (proj2 (proj2 (@destroy_keeps_order all_return two_players 100))).
    + exact two_players_wf.
    + discriminate.
Defined.

Lemma remove_keeps_order_witness :
  __iter__ (snd (@Ordered.remove all_return 100 two_players))
  = List.filter (fun e => negb (Z.eqb (fst e) 100)) (__iter__ two_players) /\
  __len__ (snd (@Ordered.remove all_return 300 two_players)) = __len__ two_players /\
  S (__len__ (snd (@Ordered.remove all_return 100 two_players)))
  = __len__ two_players.
Proof.
  split; [| split].
  - apply (proj1 (@remove_keeps_order all_return two_players 100)).
  - apply (proj1 (proj2 (@remove_keeps_order all_return two_players 300))).
    reflexivity.
  - apply (proj2 (proj2 (@remove_keeps_order all_return two_players 100))).
    + exact two_players_wf.
    + discriminate.
Defined.

(** ** The accessors *)

Lemma values_In (ow : OWorld) (p : Player) :
  dict_wf (o_players ow) ->
  In p (values ow) <-> exists g : Z, dict_get g (o_players ow) = Some p.
Proof.
  intros Hwf. unfold values. split.
  - intros Hin. apply in_map_iff in Hin as ([g p'] & <- & Hin).
    exists g. apply dict_In_get; assumption.
  - intros [g Hget]. apply dict_get_In in Hget.
    change p with (snd (g, p)). apply in_map, Hget.
Qed.

(** X15: the players [find_all] returns are exactly the players that [get]
    answers for some guild and, when a predicate is given, that the
    predicate holds of. *)
Theorem find_all_exactly (ow : OWorld) (predicate : option (Player -> bool))
    (p : Player) :
  dict_wf (o_players ow) ->
  In p (find_all predicate ow) <->
  (exists g : Z, fst (Ordered.get g ow) = Ok (Some p)) /\
  match predicate with
  | Some f => f p = true
  | None => True
  end.
Proof.
  intros Hwf.
  assert (Hget : (exists g : Z, fst (Ordered.get g ow) = Ok (Some p)) <->
                 In p (values ow)).
  { rewrite (values_In ow p Hwf). unfold Ordered.get, gets. simpl.
    split; intros [g Hg]; exists g; congruence. }
  rewrite Hget. unfold find_all. destruct predicate as [f|].
  - rewrite filter_In. reflexivity.
  - tauto.
Qed.

Lemma find_all_exactly_witness :
  In player200 (find_all (Some (fun p => Z.ltb 150 (guild_id p))) two_players) <->
  (exists g : Z, fst (Ordered.get g two_players) = Ok (Some player200)) /\
  (fun p => Z.ltb 150 (guild_id p)) player200 = true.
Proof.
  apply (find_all_exactly two_players (Some (fun p => Z.ltb 150 (guild_id p)))
           player200).
  exact two_players_wf.
Defined.

(** X16: [__iter__] yields the pair of a guild and a player exactly when
    [get] answers that player for that guild, and yields no guild twice;
    [values] yields the players of those pairs, in the same order. *)
Theorem iter_yields_the_entries (ow : OWorld) :
  dict_wf (o_players ow) ->
  (forall (g : Z) (p : Player),
      In (g, p) (__iter__ ow) <-> fst (Ordered.get g ow) = Ok (Some p)) /\
  NoDup (fst <$> __iter__ ow) /\
  values ow = snd <$> __iter__ ow.
Proof.
  intros Hwf. split; [| split; [exact Hwf | reflexivity]].
  intros g p. unfold __iter__, Ordered.get, gets. simpl. split.
  - intros Hin. rewrite (dict_In_get g p _ Hwf Hin). reflexivity.
  - intros [= Hget]. apply dict_get_In, Hget.
Qed.

Lemma iter_yields_the_entries_witness :
  (forall (g : Z) (p : Player),
      In (g, p) (__iter__ two_players)
      <-> fst (Ordered.get g two_players) = Ok (Some p)) /\
  NoDup (fst <$> __iter__ two_players) /\
  values two_players = snd <$> __iter__ two_players.
Proof. apply (iter_yields_the_entries two_players). exact two_players_wf. Defined.

(** X17: a dictionary with one entry per guild has one entry per guild
    after [create], [destroy] and [remove], however they end. *)
Theorem methods_keep_one_entry_per_guild {NM : NodeManager} {OC : Outcomes}
    (ow : OWorld) (guild : Z) (rgn endpoint : option string)
    (explicit : option node_ref) :
  dict_wf (o_players ow) ->
  dict_wf (o_players (snd (Ordered.create guild rgn endpoint explicit ow))) /\
  dict_wf (o_players (snd (Ordered.destroy guild ow))) /\
  dict_wf (o_players (snd (Ordered.remove guild ow))).
Proof.
  intros Hwf. split; [| split].
  - rewrite ordered_create_dict.
    destruct (dict_get guild (o_players ow)); [exact Hwf |].
    destruct explicit; [exact Hwf |].
    destruct (resolved_node rgn endpoint (view ow)); [| exact Hwf].
    apply dict_wf_setitem, Hwf.
  - rewrite ordered_destroy_dict. apply dict_wf_pop, Hwf.
  - rewrite ordered_remove_dict. apply dict_wf_pop, Hwf.
Qed.

Lemma methods_keep_one_entry_per_guild_witness :
  dict_wf (o_players (snd (@Ordered.create (spec_node_manager (fun _ => None)) 300
                             (Some "eu") None None two_players))) /\
  dict_wf (o_players (snd (@Ordered.destroy all_return 300 two_players))) /\
  dict_wf (o_players (snd (@Ordered.remove all_return 300 two_players))).
Proof.
  apply (@methods_keep_one_entry_per_guild (spec_node_manager (fun _ => None))
           all_return two_players 300 (Some "eu") None None).
  exact two_players_wf.
Defined.

(** X18: [__len__] is the number of guilds that have a player. *)
Theorem len_counts_guilds (ow : OWorld) :
  dict_wf (o_players ow) ->
  __len__ ow = size (dom (players (self (view ow)))) /\
  forall g : Z,
    g ∈ dom (players (self (view ow)))
    <-> exists p : Player, fst (Ordered.get g ow) = Ok (Some p).
Proof.
  intros Hwf. split.
  - unfold __len__. simpl. rewrite size_dom. unfold dict_view.
    symmetry. apply map_size_list_to_map, Hwf.
  - intros g. rewrite elem_of_dom. simpl. rewrite dict_view_get.
    unfold Ordered.get, gets, is_Some. simpl.
    split; intros [p Hp]; exists p; congruence.
Qed.

Lemma len_counts_guilds_witness :
  __len__ two_players = size (dom (players (self (view two_players)))) /\
  forall g : Z,
    g ∈ dom (players (self (view two_players)))
    <-> exists p : Player, fst (Ordered.get g two_players) = Ok (Some p).
Proof. apply (len_counts_guilds two_players). exact two_players_wf. Defined.
